(** * Immigrant Helper Tool: mentor registry and resource catalog

    A shallow embedding of the algorithmic core of
    [IMMIGRANT_HELPER_TOOL.py]: the [Volunteer] and [Immigrant] records,
    [MentorManager] ([add_mentor], [find_mentor]) and [Resource]
    ([add_resource], [_selection_sort], [_binary_search],
    [search_resources_by_category]), followed by the properties of these
    operations.

    Conventions of the embedding.
    - A Python [str] is a Rocq [string]; a character stands for the code
      point U+0000..U+00FF with the same number, and the character tables
      below are Python's tables for that range.
    - A Python [int] is a [Z]; an index produced by [range] is a [nat].
    - A Python [dict] is an insertion-ordered association list: Python
      dictionaries iterate in insertion order and [list(d.keys())]
      exposes that order to the sort.
    - [print] and [save_data] are recorded as a list of [event]s, with the
      interpolated values as arguments.
    - Exceptions are explicit: a computation returns an [outcome]. *)

From Stdlib Require Import ZArith NArith Ascii String List Bool Lia.
From Stdlib Require Import Permutation Sorted.
From stdpp Require Import base list strings sorting.
Import ListNotations.

(** ** Python strings *)

Module PyStr.

Definition code (c : ascii) : N := N_of_ascii c.

Definition between (lo hi n : N) : bool := ((lo <=? n) && (n <=? hi))%N.

(** [str.isspace] on one character: U+0009..U+000D, U+001C..U+0020,
    U+0085 and U+00A0. These are the characters removed by [str.strip()]. *)
Definition char_isspace (c : ascii) : bool :=
  let n := code c in
  between 9 13 n || between 28 32 n || (n =? 133)%N || (n =? 160)%N.

(** [str.isalpha] on one character: the letters of Basic Latin and
    Latin-1 (general categories Lu, Ll and Lo). *)
Definition char_isalpha (c : ascii) : bool :=
  let n := code c in
  between 65 90 n || between 97 122 n
  || (n =? 170)%N || (n =? 181)%N || (n =? 186)%N
  || between 192 214 n || between 216 246 n || between 248 255 n.

(** [str.lower] on one character: the upper-case letters A..Z, U+00C0..U+00D6
    and U+00D8..U+00DE move 32 places up; everything else is kept. *)
Definition char_lower (c : ascii) : ascii :=
  let n := code c in
  if between 65 90 n || between 192 214 n || between 216 222 n
  then ascii_of_N (n + 32) else c.

(** [s.lower()] *)
Fixpoint lower (s : string) : string :=
  match s with
  | EmptyString => EmptyString
  | String c s' => String (char_lower c) (lower s')
  end.

(** [s.lstrip()] *)
Fixpoint lstrip (s : string) : string :=
  match s with
  | EmptyString => EmptyString
  | String c s' => if char_isspace c then lstrip s' else s
  end.

(** [s.rstrip()] *)
Fixpoint rstrip (s : string) : string :=
  match s with
  | EmptyString => EmptyString
  | String c s' =>
      match rstrip s' with
      | EmptyString => if char_isspace c then EmptyString else String c EmptyString
      | r => String c r
      end
  end.

(** [s.strip()] *)
Definition strip (s : string) : string := rstrip (lstrip s).

(** [s.replace(old, new)] for a pattern [old] of one character. *)
Fixpoint replace (old : ascii) (new : string) (s : string) : string :=
  match s with
  | EmptyString => EmptyString
  | String c s' =>
      if Ascii.eqb c old then String.append new (replace old new s')
      else String c (replace old new s')
  end.

Fixpoint all_chars (p : ascii -> bool) (s : string) : bool :=
  match s with
  | EmptyString => true
  | String c s' => p c && all_chars p s'
  end.

(** [s.isalpha()]: at least one character, and all of them letters. *)
Definition isalpha (s : string) : bool :=
  match s with
  | EmptyString => false
  | String _ _ => all_chars char_isalpha s
  end.

(** [len(s)] *)
Definition len (s : string) : Z := Z.of_nat (String.length s).

(** [a < b] and [a == b] on strings: lexicographic on code points. *)
Definition lt (a b : string) : bool := String.ltb a b.
Definition eq (a b : string) : bool := String.eqb a b.

(** [x in xs] for a list (or iterator) of strings. *)
Definition contains (x : string) (xs : list string) : bool :=
  existsb (eq x) xs.

End PyStr.

(** ** Exceptions and output *)

Inductive exn : Type :=
| IndexError
| KeyError.

(** The result of running a piece of code: a value, an exception that
    leaves the function, or [OutOfFuel] when the recursion budget given to
    the run was too small to reach the end. *)
Inductive outcome (A : Type) : Type :=
| Normal (a : A)
| Raised (e : exn)
| OutOfFuel.

Arguments Normal {A} a.
Arguments Raised {A} e.
Arguments OutOfFuel {A}.

Definition bind {A B : Type} (m : outcome A) (k : A -> outcome B) : outcome B :=
  match m with
  | Normal a => k a
  | Raised e => Raised e
  | OutOfFuel => OutOfFuel
  end.

Notation "'do' x <- m ; k" := (bind m (fun x => k))
  (at level 10, x name, m at level 100, k at level 200).

(** [l[i]] on a list: negative indices count from the end, anything else
    out of range raises [IndexError]. *)
Definition py_getitem {A : Type} (l : list A) (i : Z) : outcome A :=
  let n := Z.of_nat (length l) in
  let j := if (i <? 0)%Z then (i + n)%Z else i in
  if ((0 <=? j) && (j <? n))%Z then
    match l !! Z.to_nat j with
    | Some x => Normal x
    | None => Raised IndexError
    end
  else Raised IndexError.

(** ** Dictionaries *)

Definition dict (V : Type) : Type := list (string * V).

(** [d.get(k)] *)
Fixpoint dict_get {V : Type} (d : dict V) (k : string) : option V :=
  match d with
  | [] => None
  | (k', v) :: d' => if PyStr.eq k' k then Some v else dict_get d' k
  end.

(** [k in d] *)
Definition dict_contains {V : Type} (d : dict V) (k : string) : bool :=
  match dict_get d k with Some _ => true | None => false end.

(** [d[k]] *)
Definition dict_getitem {V : Type} (d : dict V) (k : string) : outcome V :=
  match dict_get d k with Some v => Normal v | None => Raised KeyError end.

(** [d[k] = v]: an existing key keeps its place, a new key goes last. *)
Fixpoint dict_set {V : Type} (d : dict V) (k : string) (v : V) : dict V :=
  match d with
  | [] => [(k, v)]
  | (k', v') :: d' =>
      if PyStr.eq k' k then (k', v) :: d' else (k', v') :: dict_set d' k v
  end.

(** [list(d.keys())] *)
Definition dict_keys {V : Type} (d : dict V) : list string := map fst d.

(** ** Records *)

(** One entry of [Immigrant.progress_log]. *)
Record log_entry : Type := mk_log_entry {
  session_type : string;
  details : string;
  timestamp : string
}.

(** The attributes of an [Immigrant] object; the projections carry the
    prefix [imm_] and those of a [Volunteer] the prefix [vol_], as both
    classes have a [name] and an [email]. *)
Record Immigrant : Type := mk_Immigrant {
  imm_name : string;
  imm_email : string;
  imm_native_language : string;
  imm_desired_language : string;
  imm_location : string;
  imm_goals : list string;
  imm_progress_log : list log_entry
}.

Record Volunteer : Type := mk_Volunteer {
  vol_name : string;
  vol_email : string;
  vol_expertise : string;
  vol_available_languages : list string;
  vol_availability : bool
}.

(** What [add_mentor] can be handed: a [Volunteer] (or an instance of one of
    its subclasses, which add no fields), or any other object. *)
Inductive pyobj : Type :=
| VolunteerObj (v : Volunteer)
| OtherObj.

Inductive event : Type :=
| Printed (text : string)
    (** a [print] whose text is spelled out *)
| MentorAdded (mentor : Volunteer)
    (** [print(f"Mentor added: {mentor}")] *)
| SavedMentors (filename : string) (mentors : list Volunteer)
    (** [save_data(filename, {mentor.email: mentor.__dict__ ...})] *)
| ResourceAdded (name category location : string)
    (** the success message of [add_resource], which capitalizes
        [category] and [location] *)
| ResourcesListed (location category : string) (resources : list string)
    (** the two lines printed on a successful category search: the
        capitalized location and category, then the resources joined by
        [", "] *)
| NoResourcesInCategory (location category : string)
| NoResourcesInLocation (location : string).

(** ** Immigrant *)

(** [Immigrant.__init__] *)
Definition Immigrant_init (name email native_language desired_language location : string)
  (goals : list string) : Immigrant :=
  mk_Immigrant name email native_language desired_language location goals [].

(** [Immigrant.update_progress]; [now] is the reading of
    [datetime.now().strftime(...)]. *)
Definition update_progress (self : Immigrant) (now session_type details : string)
  : Immigrant * list event :=
  let timestamp := now in
  (mk_Immigrant (imm_name self) (imm_email self) (imm_native_language self)
     (imm_desired_language self) (imm_location self) (imm_goals self)
     (imm_progress_log self ++ [mk_log_entry session_type details timestamp]),
   [Printed ("Progress updated: " +:+ session_type +:+ " - " +:+ details
             +:+ " at " +:+ timestamp)]).

(** ** Volunteer *)

(** [Volunteer.__init__] *)
Definition Volunteer_init (name email expertise : string)
  (available_languages : list string) (availability : bool) : Volunteer :=
  mk_Volunteer name email expertise
    (map (fun lang => PyStr.lower (PyStr.strip lang)) available_languages)
    availability.

(** The subclasses: each fixes the expertise label and adds no field. *)
Definition LanguageMentor_init (name email : string) (available_languages : list string)
  (availability : bool) : Volunteer :=
  Volunteer_init name email "Language" available_languages availability.

Definition CulturalIntegrationMentor_init (name email : string)
  (available_languages : list string) (availability : bool) : Volunteer :=
  Volunteer_init name email "Cultural Integration" available_languages availability.

Definition CareerMentor_init (name email : string) (available_languages : list string)
  (availability : bool) : Volunteer :=
  Volunteer_init name email "Career" available_languages availability.

Definition HealthAdvisor_init (name email : string) (available_languages : list string)
  (availability : bool) : Volunteer :=
  Volunteer_init name email "Health" available_languages availability.

Definition LegalAdvisor_init (name email : string) (available_languages : list string)
  (availability : bool) : Volunteer :=
  Volunteer_init name email "Legal" available_languages availability.

(** The assignment [mentor.availability = status]. *)
Definition with_availability (self : Volunteer) (status : bool) : Volunteer :=
  mk_Volunteer (vol_name self) (vol_email self) (vol_expertise self)
    (vol_available_languages self) status.

(** [Volunteer.set_availability] *)
Definition set_availability (self : Volunteer) (status : bool) : Volunteer * list event :=
  let state := if status then "Available" else "Unavailable" in
  (with_availability self status,
   [Printed (vol_name self +:+ "'s availability updated to " +:+ state +:+ ".")]).

(** ** MentorManager *)

(** [self.mentors]: the registry, in insertion order. Every caller of
    [add_mentor] passes a freshly constructed object, so the entries are
    distinct objects and a list of records represents them. *)
Abbreviation mentors_t := (list Volunteer) (only parsing).

(** [MentorManager.add_mentor]: the new registry and what was printed. The
    [TypeError] raised for a non-volunteer is caught inside the function. *)
Definition add_mentor (mentors : mentors_t) (mentor : pyobj) (verbose : bool)
  : mentors_t * list event :=
  match mentor with
  | OtherObj =>
      (mentors,
       [Printed "Error adding mentor: Only objects of type Volunteer or its subclasses can be added as mentors."])
  | VolunteerObj v =>
      (mentors ++ [v], if verbose then [MentorAdded v] else [])
  end.

(** The test made on each mentor by the loop of [find_mentor]. *)
Definition mentor_matches (immigrant : Immigrant) (expertise : string) (mentor : Volunteer)
  : bool :=
  (PyStr.eq (PyStr.lower (vol_expertise mentor)) (PyStr.lower expertise)
   && vol_availability mentor)
  && PyStr.contains (PyStr.lower (imm_desired_language immigrant))
       (map PyStr.lower (vol_available_languages mentor)).

(** The [for mentor in self.mentors] loop: the position and the mentor at
    which it returns, if it does. *)
Fixpoint first_match (immigrant : Immigrant) (expertise : string) (mentors : mentors_t)
  : option (nat * Volunteer) :=
  match mentors with
  | [] => None
  | mentor :: rest =>
      if mentor_matches immigrant expertise mentor then Some (0%nat, mentor)
      else
        match first_match immigrant expertise rest with
        | Some (i, m) => Some (S i, m)
        | None => None
        end
  end.

(** The result of [find_mentor]: the returned mentor (or [None]), the
    registry and the immigrant after the call, and the output. The function
    returns a reference to an entry of the registry: [found] gives the
    position of that entry, which identifies the object, and its attributes
    at the time of the return. *)
Record find_result : Type := mk_find_result {
  found : option (nat * Volunteer);
  mentors_after : mentors_t;
  immigrant_after : Immigrant;
  output : list event
}.

(** [MentorManager.find_mentor]. Both arguments are of the expected types,
    so neither [TypeError] is raised. *)
Definition find_mentor (mentors : mentors_t) (immigrant : Immigrant) (expertise now : string)
  : find_result :=
  match first_match immigrant expertise mentors with
  | Some (i, mentor) =>
      let mentor := with_availability mentor false in
      let mentors := <[i := mentor]> mentors in
      let saved := SavedMentors "mentors.json" mentors in
      let '(immigrant, printed) :=
        update_progress immigrant now "Mentor Matched"
          ("Matched with " +:+ vol_name mentor) in
      mk_find_result (Some (i, mentor)) mentors immigrant (saved :: printed)
  | None => mk_find_result None mentors immigrant [Printed "No mentor available."]
  end.

(** ** Resource *)

(** [self.resource_db]: location -> category -> resource names. *)
Definition resource_db_t : Type := dict (dict (list string)).

(** [Resource.add_resource]: the database after the call and the output. *)
Definition add_resource (resource_db : resource_db_t) (location category name : string)
  (verbose : bool) : outcome (resource_db_t * list event) :=
  if negb (PyStr.isalpha (PyStr.replace " " "" location)) then
    Normal (resource_db,
            [Printed ("Invalid location: '" +:+ location
                      +:+ "'. Ensure it contains only letters and spaces.")])
  else if negb (PyStr.isalpha (PyStr.replace " " "" category)) then
    Normal (resource_db,
            [Printed ("Invalid category: '" +:+ category
                      +:+ "'. Ensure it contains only letters and spaces.")])
  else if negb (PyStr.len (PyStr.strip name) >? 0)%Z then
    Normal (resource_db,
            [Printed ("Invalid name: '" +:+ name +:+ "'. Ensure it is not empty.")])
  else
    let location := PyStr.lower (PyStr.strip location) in
    let category := PyStr.lower (PyStr.strip category) in
    let name := PyStr.strip name in
    let resource_db :=
      if negb (dict_contains resource_db location)
      then dict_set resource_db location [] else resource_db in
    do categories <- dict_getitem resource_db location;
    let categories :=
      if negb (dict_contains categories category)
      then dict_set categories category [] else categories in
    do names <- dict_getitem categories category;
    let categories := dict_set categories category (names ++ [name]) in
    let resource_db := dict_set resource_db location categories in
    Normal (resource_db,
            if verbose then [ResourceAdded name category location] else []).

(** The inner loop of [_selection_sort]: [min_index] after
    [for j in range(i + 1, len(data))]. *)
Definition selection_min_index (data : list string) (i : nat) : nat :=
  fold_left
    (fun min_index j =>
       if PyStr.lt (data !!! j) (data !!! min_index) then j else min_index)
    (seq (i + 1) (length data - (i + 1)))
    i.

(** [data[i], data[min_index] = data[min_index], data[i]]: the right-hand
    side is read first, then [data[i]] and [data[min_index]] are assigned
    in this order. *)
Definition swap_items (data : list string) (i min_index : nat) : list string :=
  let a := data !!! min_index in
  let b := data !!! i in
  <[min_index := b]> (<[i := a]> data).

(** [Resource._selection_sort]; the list is sorted in place and returned. *)
Definition _selection_sort (data : list string) : list string :=
  fold_left
    (fun data i => swap_items data i (selection_min_index data i))
    (seq 0 (length data))
    data.

(** [Resource._binary_search]; [fuel] bounds the depth of the recursion. *)
Fixpoint _binary_search (fuel : nat) (sorted_list : list string) (target : string)
  (left right : Z) : outcome Z :=
  match fuel with
  | O => OutOfFuel
  | S fuel =>
      if (left <=? right)%Z then
        let mid := ((left + right) / 2)%Z in
        do item <- py_getitem sorted_list mid;
        if PyStr.eq item target then Normal mid
        else if PyStr.lt item target then
          _binary_search fuel sorted_list target (mid + 1)%Z right
        else
          _binary_search fuel sorted_list target left (mid - 1)%Z
      else Normal (-1)%Z
  end.

(** One activation of [_binary_search], as it shows in a trace of the
    recursion: its [left] and [right], and the index it reads, if any. *)
Record frame : Type := mk_frame {
  frame_left : Z;
  frame_right : Z;
  frame_read : option Z
}.

(** [_binary_search] again, returning the activations in call order next to
    the result. *)
Fixpoint _binary_search_trace (fuel : nat) (sorted_list : list string) (target : string)
  (left right : Z) : outcome Z * list frame :=
  match fuel with
  | O => (OutOfFuel, [])
  | S fuel =>
      if (left <=? right)%Z then
        let mid := ((left + right) / 2)%Z in
        let here := mk_frame left right (Some mid) in
        match py_getitem sorted_list mid with
        | Normal item =>
            if PyStr.eq item target then (Normal mid, [here])
            else if PyStr.lt item target then
              let '(r, t) := _binary_search_trace fuel sorted_list target (mid + 1)%Z right in
              (r, here :: t)
            else
              let '(r, t) := _binary_search_trace fuel sorted_list target left (mid - 1)%Z in
              (r, here :: t)
        | Raised e => (Raised e, [here])
        | OutOfFuel => (OutOfFuel, [here])
        end
      else (Normal (-1)%Z, [mk_frame left right None])
  end.

(** [Resource.search_resources_by_category]: what it prints. [fuel] is the
    recursion budget of each binary search. *)
Definition search_resources_by_category (fuel : nat) (resource_db : resource_db_t)
  (location category : string) : outcome (list event) :=
  let location := PyStr.lower (PyStr.strip location) in
  let category := PyStr.lower (PyStr.strip category) in
  let sorted_locations := _selection_sort (dict_keys resource_db) in
  do location_index <-
    _binary_search fuel sorted_locations location 0
      (Z.of_nat (length sorted_locations) - 1);
  if negb (location_index =? -1)%Z then
    do actual_location <- py_getitem sorted_locations location_index;
    do categories <- dict_getitem resource_db actual_location;
    let sorted_categories := _selection_sort (dict_keys categories) in
    do category_index <-
      _binary_search fuel sorted_categories category 0
        (Z.of_nat (length sorted_categories) - 1);
    if negb (category_index =? -1)%Z then
      do actual_category <- py_getitem sorted_categories category_index;
      do resources <- dict_getitem categories actual_category;
      Normal [ResourcesListed actual_location actual_category resources]
    else Normal [NoResourcesInCategory location category]
  else Normal [NoResourcesInLocation location].

(** ** The rest of the embedding: removal, registration, reloading and the
    search by location *)

(** [EXPERTISE_AREAS] *)
Definition EXPERTISE_AREAS : list string :=
  ["language"; "cultural integration"; "career"; "health"; "legal"].

(** The dictionary read for one mentor, [mentor.__dict__] as [save_data]
    writes it: each key is missing ([None]) or bound to a value of the type
    that [save_data] wrote. *)
Record volunteer_dict : Type := mk_volunteer_dict {
  vd_name : option string;
  vd_email : option string;
  vd_expertise : option string;
  vd_available_languages : option (list string);
  vd_availability : option bool
}.

(** [mentor.__dict__] *)
Definition Volunteer_dict (self : Volunteer) : volunteer_dict :=
  mk_volunteer_dict (Some (vol_name self)) (Some (vol_email self))
    (Some (vol_expertise self)) (Some (vol_available_languages self))
    (Some (vol_availability self)).

(** [{mentor.email: mentor.__dict__ for mentor in mentors}]: what each call
    of [save_data("mentors.json", ...)] is given. *)
Definition mentors_snapshot (mentors : mentors_t) : dict volunteer_dict :=
  fold_left
    (fun data mentor => dict_set data (vol_email mentor) (Volunteer_dict mentor))
    mentors [].

(** The output of the functions of this part. *)
Inductive notice : Type :=
| Said (text : string)
    (** a [print] whose text is spelled out *)
| Emitted (e : event)
    (** output of a function of the first part *)
| MentorRemoved (mentor : Volunteer)
    (** [print(f"Mentor removed: {mentor}")] *)
| AlreadyRegistered
    (** the warning that a volunteer with this email exists *)
| MentorsSaved (filename : string) (data : dict volunteer_dict)
    (** [save_data(filename, {mentor.email: mentor.__dict__ ...})] *)
| RegistrationThanks (name : string)
    (** the closing message of a registration *)
| LocationHeader (location : string)
    (** the first line of a search by location, with the location
        capitalized *)
| CategoryLine (category : string) (resources : list string)
    (** one line of a search by location: the capitalized category and its
        resources joined by [", "] *)
| DemoVolunteerAdded (mentor : Volunteer)
    (** the line of [prepopulate_volunteers] for one mentor, with the name
        and the capitalized expertise *).

(** The loop of [remove_mentor]: the position and the mentor of the first
    entry whose email equals [mentor_email] when both are lower-cased. *)
Fixpoint first_with_email (mentor_email : string) (mentors : mentors_t)
  : option (nat * Volunteer) :=
  match mentors with
  | [] => None
  | mentor :: rest =>
      if PyStr.eq (PyStr.lower (vol_email mentor)) (PyStr.lower mentor_email)
      then Some (0%nat, mentor)
      else
        match first_with_email mentor_email rest with
        | Some (i, m) => Some (S i, m)
        | None => None
        end
  end.

(** [MentorManager.remove_mentor]: the boolean returned, the registry after
    the call and the output. [self.mentors.remove(mentor)] takes out the
    object the loop stands on. *)
Definition remove_mentor (mentors : mentors_t) (mentor_email : string)
  : bool * mentors_t * list notice :=
  match first_with_email mentor_email mentors with
  | Some (i, mentor) => (true, delete i mentors, [MentorRemoved mentor])
  | None =>
      (false, mentors, [Said ("No mentor found with email: " +:+ mentor_email)])
  end.

(** The loop that the volunteer menu runs on the email typed by the user
    (log in, register, update, view): the first mentor whose lower-cased
    email equals the typed text as it is. *)
Fixpoint mentor_by_typed_email (email : string) (mentors : mentors_t)
  : option (nat * Volunteer) :=
  match mentors with
  | [] => None
  | mentor :: rest =>
      if PyStr.eq (PyStr.lower (vol_email mentor)) email then Some (0%nat, mentor)
      else
        match mentor_by_typed_email email rest with
        | Some (i, m) => Some (S i, m)
        | None => None
        end
  end.

(** Choice 2 of [volunteer_menu], from the check of the email on: [email] is
    the address typed, and [name], [expertise], [language_list] and
    [availability] are the values that the prompts give once they accept
    them. *)
Definition register_volunteer (mentors : mentors_t)
  (email name expertise : string) (language_list : list string) (availability : bool)
  : mentors_t * list notice :=
  match mentor_by_typed_email email mentors with
  | Some _ => (mentors, [AlreadyRegistered])
  | None =>
      let new_mentor := Volunteer_init name email expertise language_list availability in
      let '(mentors, printed) := add_mentor mentors (VolunteerObj new_mentor) false in
      (mentors,
       map Emitted printed
       ++ [MentorsSaved "mentors.json" (mentors_snapshot mentors);
           RegistrationThanks name])
  end.

(** Choice 3 of [volunteer_menu]: [set_availability(status)] on the mentor
    found for the typed email; the boolean says whether one was found. *)
Definition update_availability (mentors : mentors_t) (email : string) (status : bool)
  : bool * mentors_t :=
  match mentor_by_typed_email email mentors with
  | Some (i, mentor) => (true, <[i := fst (set_availability mentor status)]> mentors)
  | None => (false, mentors)
  end.

(** [volunteer_mapping] of [create_volunteer_from_dict]: the class for an
    expertise. *)
Definition volunteer_mapping (expertise : string)
  : option (string -> string -> list string -> bool -> Volunteer) :=
  if PyStr.eq expertise "language" then Some LanguageMentor_init
  else if PyStr.eq expertise "cultural integration" then Some CulturalIntegrationMentor_init
  else if PyStr.eq expertise "career" then Some CareerMentor_init
  else if PyStr.eq expertise "health" then Some HealthAdvisor_init
  else if PyStr.eq expertise "legal" then Some LegalAdvisor_init
  else None.

(** [create_volunteer_from_dict]: a missing key raises [KeyError], which the
    function turns into [None]; [availability] defaults to [True]. *)
Definition create_volunteer_from_dict (data : volunteer_dict) : option Volunteer :=
  match vd_expertise data with
  | None => None
  | Some e =>
      let expertise := PyStr.lower e in
      match volunteer_mapping expertise with
      | Some cls =>
          match vd_name data, vd_email data, vd_available_languages data with
          | Some name, Some email, Some available_languages =>
              Some (cls name email available_languages
                      (default true (vd_availability data)))
          | _, _, _ => None
          end
      | None => None
      end
  end.

(** The loop of [main_menu] over the mentors read from [mentors.json],
    started on an empty [MentorManager]. *)
Definition load_mentors_loop (mentors_data : dict volunteer_dict) : mentors_t :=
  fold_left
    (fun mentors item =>
       match create_volunteer_from_dict (snd item) with
       | Some mentor => fst (add_mentor mentors (VolunteerObj mentor) false)
       | None => mentors
       end)
    mentors_data [].

(** [demo_volunteers] of [prepopulate_volunteers]. *)
Definition demo_volunteers : dict volunteer_dict :=
  [
   ("alice.smith@example.com",
    mk_volunteer_dict (Some "Alice Smith") (Some "alice.smith@example.com")
      (Some "language") (Some ["english"; "spanish"]) (Some true));
   ("juan.perez@example.com",
    mk_volunteer_dict (Some "Juan Perez") (Some "juan.perez@example.com")
      (Some "language") (Some ["spanish"; "english"]) (Some true));
   ("mai.nguyen@example.com",
    mk_volunteer_dict (Some "Mai Nguyen") (Some "mai.nguyen@example.com")
      (Some "language") (Some ["vietnamese"; "english"]) (Some true));
   ("ahmet@example.com",
    mk_volunteer_dict (Some "Ahmet Yilmaz") (Some "ahmet@example.com")
      (Some "cultural integration") (Some ["turkish"; "english"]) (Some true));
   ("sofia.rossi@example.com",
    mk_volunteer_dict (Some "Sofia Rossi") (Some "sofia.rossi@example.com")
      (Some "cultural integration") (Some ["italian"; "english"]) (Some true));
   ("charlie.davis@example.com",
    mk_volunteer_dict (Some "Charlie Davis") (Some "charlie.davis@example.com")
      (Some "career") (Some ["english"; "french"]) (Some true));
   ("priya.patel@example.com",
    mk_volunteer_dict (Some "Priya Patel") (Some "priya.patel@example.com")
      (Some "career") (Some ["hindi"; "english"]) (Some true));
   ("dana.lee@example.com",
    mk_volunteer_dict (Some "Dana Lee") (Some "dana.lee@example.com")
      (Some "health") (Some ["korean"; "english"]) (Some true));
   ("alex.green@example.com",
    mk_volunteer_dict (Some "Alex Green") (Some "alex.green@example.com")
      (Some "health") (Some ["english"; "german"]) (Some true));
   ("eve.martinez@example.com",
    mk_volunteer_dict (Some "Eve Martinez") (Some "eve.martinez@example.com")
      (Some "legal") (Some ["english"; "portuguese"]) (Some true));
   ("yuki.tanaka@example.com",
    mk_volunteer_dict (Some "Yuki Tanaka") (Some "yuki.tanaka@example.com")
      (Some "legal") (Some ["japanese"; "english"]) (Some true))
  ].

(** [prepopulate_volunteers]: the registry after the call and the output. *)
Definition prepopulate_volunteers (mentors : mentors_t) (verbose : bool)
  : mentors_t * list notice :=
  fold_left
    (fun state item =>
       match create_volunteer_from_dict (snd item) with
       | Some mentor =>
           let '(mentors, printed) :=
             add_mentor (fst state) (VolunteerObj mentor) verbose in
           (mentors,
            snd state ++ map Emitted printed
            ++ (if verbose then [DemoVolunteerAdded mentor] else []))
       | None => state
       end)
    demo_volunteers
    (mentors,
     if verbose then [Said "Prepopulating volunteers with demo data..."] else []).

(** The registry that [main_menu] builds at its start from [mentors_data],
    the dictionary read from [mentors.json]: the loop over its items when
    it is not empty, and the demo mentors of [prepopulate_volunteers], on
    an empty [MentorManager] and without output, when it is empty. *)
Definition load_mentors (mentors_data : dict volunteer_dict) : mentors_t :=
  match mentors_data with
  | _ :: _ => load_mentors_loop mentors_data
  | [] => fst (prepopulate_volunteers [] false)
  end.

(** [Resource.search_resources_by_location]: what it prints. *)
Definition search_resources_by_location (fuel : nat) (resource_db : resource_db_t)
  (location : string) : outcome (list notice) :=
  let location := PyStr.lower (PyStr.strip location) in
  let sorted_locations := _selection_sort (dict_keys resource_db) in
  do index <-
    _binary_search fuel sorted_locations location 0
      (Z.of_nat (length sorted_locations) - 1);
  if negb (index =? -1)%Z then
    do actual_location <- py_getitem sorted_locations index;
    do categories <- dict_getitem resource_db actual_location;
    Normal (LocationHeader actual_location
            :: map (fun item => CategoryLine (fst item) (snd item)) categories)
  else
    Normal [Said ("No resources found for location '" +:+ location +:+ "'.")].

(** * Vocabulary of the properties *)

(** The invariant of the outer loop of [_selection_sort] before the pass for
    index [k]: the items are those of the input, and each of the first [k]
    is below everything after it. *)
Definition sort_inv (data0 data : list string) (k : nat) : Prop :=
  length data = length data0 /\
  data ≡ₚ data0 /\
  forall a b, (a < k)%nat -> (a < b < length data)%nat ->
    String.le (data !!! a) (data !!! b).

(** The three conditions of a match, as the specification words them: the
    expertise is the requested one up to case, the mentor is available, and
    the language the immigrant wants is among the mentor's languages up to
    case. *)
Definition satisfies_conditions (immigrant : Immigrant) (expertise : string)
  (mentor : Volunteer) : Prop :=
  PyStr.lower (vol_expertise mentor) = PyStr.lower expertise /\
  vol_availability mentor = true /\
  exists lang, In lang (vol_available_languages mentor) /\
    PyStr.lower lang = PyStr.lower (imm_desired_language immigrant).

(** A contact is present in the registry, compared without regard to case. *)
Definition email_present (mentors : mentors_t) (contact : string) : Prop :=
  exists m, In m mentors /\ PyStr.lower (vol_email m) = PyStr.lower contact.

(** The entry that [find_mentor] appends to the log of the immigrant. *)
Definition match_entry (mentor : Volunteer) (now : string) : log_entry :=
  mk_log_entry "Mentor Matched" ("Matched with " +:+ vol_name mentor) now.

(** *** The session: the registry and the immigrants, and what the menus do
    to them *)

Record system : Type := mk_system {
  sys_mentors : mentors_t;
  sys_immigrants : list Immigrant
}.

Inductive action : Type :=
| AddMentor (v : Volunteer)
    (** a registration: [add_mentor] with a new [Volunteer] *)
| AddImmigrant (i : Immigrant)
    (** a new immigrant enters [immigrants_db] *)
| SetAvailability (i : nat) (status : bool)
    (** [set_availability(status)] on the mentor at position [i] *)
| FindMentor (k : nat) (expertise now : string)
    (** [find_mentor] for the immigrant at position [k] *).

(** The state after an action, and the position of the mentor that the
    action returned, if it is a [find_mentor] that matched. *)
Definition apply_action (s : system) (a : action) : system * option nat :=
  match a with
  | AddMentor v =>
      (mk_system (fst (add_mentor (sys_mentors s) (VolunteerObj v) false))
         (sys_immigrants s), None)
  | AddImmigrant i =>
      (mk_system (sys_mentors s) (sys_immigrants s ++ [i]), None)
  | SetAvailability i status =>
      match sys_mentors s !! i with
      | Some m =>
          (mk_system (<[i := fst (set_availability m status)]> (sys_mentors s))
             (sys_immigrants s), None)
      | None => (s, None)
      end
  | FindMentor k expertise now =>
      match sys_immigrants s !! k with
      | Some immigrant =>
          let res := find_mentor (sys_mentors s) immigrant expertise now in
          (mk_system (mentors_after res) (<[k := immigrant_after res]> (sys_immigrants s)),
           fst <$> found res)
      | None => (s, None)
      end
  end.

(** A sequence of actions: the final state and what each action returned. *)
Fixpoint run (s : system) (actions : list action) : system * list (option nat) :=
  match actions with
  | [] => (s, [])
  | a :: rest =>
      let '(s1, r) := apply_action s a in
      let '(s2, rs) := run s1 rest in
      (s2, r :: rs)
  end.

Definition initial : system := mk_system [] [].

Definition reachable (s : system) : Prop :=
  exists actions, fst (run initial actions) = s.

Definition is_match_event (mentor : Volunteer) (e : log_entry) : bool :=
  PyStr.eq (session_type e) "Mentor Matched"
  && PyStr.eq (details e) ("Matched with " +:+ vol_name mentor).

(** The number of match events that name [mentor] in the logs of all
    immigrants. *)
Definition match_events (s : system) (mentor : Volunteer) : nat :=
  length (filter (fun e => is_match_event mentor e = true)
            (concat (map imm_progress_log (sys_immigrants s)))).

(** The property of the specification: every unavailable mentor has exactly
    one match event. *)
Definition unavailable_matched_once (s : system) : Prop :=
  forall m, In m (sys_mentors s) -> vol_availability m = false ->
    match_events s m = 1%nat.

(** *** The catalog *)

(** The categories of a location and the names of a category, empty when
    the key is missing. *)
Definition categories_of (resource_db : resource_db_t) (location : string)
  : dict (list string) :=
  default [] (dict_get resource_db location).

Definition names_of (categories : dict (list string)) (category : string) : list string :=
  default [] (dict_get categories category).

(** [s] is [core] with white space added on both sides. *)
Definition padded (s core : string) : Prop :=
  exists w1 w2,
    PyStr.all_chars PyStr.char_isspace w1 = true /\
    PyStr.all_chars PyStr.char_isspace w2 = true /\
    s = w1 +:+ core +:+ w2.

(** Two spellings that differ only by case or by surrounding white space. *)
Definition same_up_to_case_and_padding (a b : string) : Prop :=
  exists ca cb, padded a ca /\ padded b cb /\ PyStr.lower ca = PyStr.lower cb.

(** The string holds a character that is not a letter. *)
Definition has_non_alpha (s : string) : Prop :=
  exists c, In c (list_ascii_of_string s) /\ PyStr.char_isalpha c = false.

(** The catalogs that calls of [add_resource] build from the empty one. *)
Inductive catalog_reachable : resource_db_t -> Prop :=
| reach_empty : catalog_reachable []
| reach_add (resource_db resource_db' : resource_db_t)
    (location category name : string) (verbose : bool) (printed : list event) :
    catalog_reachable resource_db ->
    add_resource resource_db location category name verbose
      = Normal (resource_db', printed) ->
    catalog_reachable resource_db'.

(** No location key and no category key is the empty string. *)
Definition keys_nonempty (resource_db : resource_db_t) : Prop :=
  forall location categories,
    In (location, categories) resource_db ->
    location <> EmptyString /\
    forall category names,
      In (category, names) categories -> category <> EmptyString.

(** *** Sample data, after [prepopulate_volunteers] *)

Definition alice : Volunteer :=
  LanguageMentor_init "Alice Smith" "alice.smith@example.com" ["english"; "spanish"] true.

Definition charlie : Volunteer :=
  CareerMentor_init "Charlie Davis" "charlie.davis@example.com" ["english"; "french"] true.

(** A second registration under Alice's address, written in capitals. *)
Definition alice_again : Volunteer :=
  LanguageMentor_init "Alice S." "ALICE.SMITH@EXAMPLE.COM" ["english"] true.

(** A mentor who registers as not available. *)
Definition dana_off : Volunteer :=
  HealthAdvisor_init "Dana Lee" "dana.lee@example.com" ["korean"; "english"] false.

Definition maria : Immigrant :=
  Immigrant_init "Maria" "maria@example.com" "portuguese" "Spanish" "San Jose"
    ["Language Practice"].

(** The catalog after [add_resource("San Jose", "Health", "Clinic X")] on an
    empty one. *)
Definition clinic_catalog : resource_db_t :=
  [("san jose", [("health", ["Clinic X"])])].

(** The width [right - left] of the interval of an activation. *)
Definition frame_width (f : frame) : Z := (frame_right f - frame_left f)%Z.

(** Each activation of a trace has a strictly narrower interval than the one
    that called it. *)
Fixpoint shrinking (frames : list frame) : Prop :=
  match frames with
  | f1 :: (f2 :: _) as rest => (frame_width f2 < frame_width f1)%Z /\ shrinking rest
  | _ => True
  end.

(** An activation reads nothing when its interval is empty, and otherwise
    one index, inside its interval and inside the list. *)
Definition frame_reads_inside (n : nat) (f : frame) : Prop :=
  match frame_read f with
  | Some m =>
      (frame_left f <= m <= frame_right f)%Z /\ (0 <= m < Z.of_nat n)%Z
  | None => (frame_right f < frame_left f)%Z
  end.

(** *** Vocabulary of the further properties *)

(** The names stored for a location and a category, empty when either key
    is missing. *)
Definition bucket (resource_db : resource_db_t) (location category : string)
  : list string :=
  names_of (categories_of resource_db location) category.

(** The recursion budget exceeds the number of locations and the number of
    categories of every location. *)
Definition fuel_covers (fuel : nat) (resource_db : resource_db_t) : Prop :=
  (length resource_db < fuel)%nat /\
  forall location categories,
    In (location, categories) resource_db -> (length categories < fuel)%nat.

(** A key in normal form: equal to its own [strip().lower()], that is,
    trimmed and lower-case. *)
Definition normal_key (k : string) : Prop :=
  PyStr.lower (PyStr.strip k) = k.

(** The keys of a catalog: no location twice, no category twice within a
    location, and every key in normal form. *)
Definition keys_normal_unique (resource_db : resource_db_t) : Prop :=
  NoDup (dict_keys resource_db) /\
  forall location categories,
    In (location, categories) resource_db ->
    normal_key location /\
    NoDup (dict_keys categories) /\
    forall category names, In (category, names) categories -> normal_key category.

(** The buckets of a catalog: every location has a category, every category
    has a name, and every name is trimmed and not empty. *)
Definition buckets_filled (resource_db : resource_db_t) : Prop :=
  forall location categories,
    In (location, categories) resource_db ->
    categories <> [] /\
    forall category names,
      In (category, names) categories ->
      names <> [] /\
      forall n, In n names -> n <> EmptyString /\ PyStr.strip n = n.

(** The answer of a direct look-up of a location and a category in the
    nested dictionary. *)
Definition category_lookup (resource_db : resource_db_t) (location category : string)
  : event :=
  match dict_get resource_db location with
  | None => NoResourcesInLocation location
  | Some categories =>
      match dict_get categories category with
      | None => NoResourcesInCategory location category
      | Some resources => ResourcesListed location category resources
      end
  end.

(** The answer of a direct look-up of a location. *)
Definition location_lookup (resource_db : resource_db_t) (location : string)
  : list notice :=
  match dict_get resource_db location with
  | None => [Said ("No resources found for location '" +:+ location +:+ "'.")]
  | Some categories =>
      LocationHeader location
      :: map (fun item => CategoryLine (fst item) (snd item)) categories
  end.

(** The first position of a list at which a test holds, with the item
    there: the shape shared by the loops over the registry. *)
Fixpoint first_where {A : Type} (p : A -> bool) (l : list A) : option (nat * A) :=
  match l with
  | [] => None
  | x :: rest =>
      if p x then Some (0%nat, x)
      else
        match first_where p rest with
        | Some (i, y) => Some (S i, y)
        | None => None
        end
  end.

(** The contact of a mentor with its case removed. *)
Definition contact_key (m : Volunteer) : string := PyStr.lower (vol_email m).

(** The number of mentors of the registry that are available. *)
Definition available_count (mentors : mentors_t) : nat :=
  length (filter (fun m => vol_availability m = true) mentors).

(** The attributes of a mentor that no operation on the registry changes. *)
Definition identity_of (m : Volunteer) : string * string * string * list string :=
  (vol_name m, vol_email m, vol_expertise m, vol_available_languages m).

(** * Properties *)

(** ** Characters and strings *)

Module PyStrFacts.
Import PyStr.

Ltac each_char c :=
  destruct c as [[] [] [] [] [] [] [] []]; vm_compute; try reflexivity; try discriminate.

Lemma char_isalpha_not_space (c : ascii) :
  char_isalpha c = true -> char_isspace c = false.
Proof. each_char c. Qed.

Lemma char_lower_isspace (c : ascii) :
  char_isspace (char_lower c) = char_isspace c.
Proof. each_char c. Qed.

Lemma char_lower_idemp (c : ascii) : char_lower (char_lower c) = char_lower c.
Proof. each_char c. Qed.

Lemma app_String (c : ascii) (a b : string) :
  String c a +:+ b = String c (a +:+ b).
Proof. reflexivity. Qed.

Lemma app_empty_l (s : string) : EmptyString +:+ s = s.
Proof. reflexivity. Qed.

Lemma lower_empty_inv (s : string) : lower s = EmptyString -> s = EmptyString.
Proof. destruct s; [reflexivity | discriminate]. Qed.

Lemma lower_lstrip (s : string) : lower (lstrip s) = lstrip (lower s).
Proof.
  induction s as [|c s IH]; simpl; [reflexivity|].
  rewrite char_lower_isspace. destruct (char_isspace c); [exact IH | reflexivity].
Qed.

Lemma lower_rstrip (s : string) : lower (rstrip s) = rstrip (lower s).
Proof.
  induction s as [|c s IH]; simpl; [reflexivity|].
  rewrite <- IH, char_lower_isspace.
  destruct (rstrip s) as [|d r]; simpl; [|reflexivity].
  destruct (char_isspace c); reflexivity.
Qed.

Lemma lower_strip (s : string) : lower (strip s) = strip (lower s).
Proof. unfold strip. rewrite lower_rstrip, lower_lstrip. reflexivity. Qed.

Lemma lstrip_spaces (w : string) : all_chars char_isspace w = true -> lstrip w = EmptyString.
Proof.
  induction w as [|c w IH]; simpl; [reflexivity|].
  intros [Hc Hw]%andb_true_iff. rewrite Hc. auto.
Qed.

Lemma rstrip_spaces (w : string) : all_chars char_isspace w = true -> rstrip w = EmptyString.
Proof.
  induction w as [|c w IH]; simpl; [reflexivity|].
  intros [Hc Hw]%andb_true_iff. rewrite (IH Hw), Hc. reflexivity.
Qed.

Lemma rstrip_empty_inv (s : string) : rstrip s = EmptyString -> all_chars char_isspace s = true.
Proof.
  induction s as [|c s IH]; simpl; [reflexivity|].
  destruct (rstrip s) as [|d r]; [|discriminate].
  destruct (char_isspace c); [auto | discriminate].
Qed.

Lemma lstrip_head (s : string) :
  lstrip s = EmptyString \/
  exists c r, lstrip s = String c r /\ char_isspace c = false.
Proof.
  induction s as [|c s IH]; simpl; [left; reflexivity|].
  destruct (char_isspace c) eqn:Hc; [exact IH|]. right. eauto.
Qed.

Lemma lstrip_empty_inv (s : string) : lstrip s = EmptyString -> all_chars char_isspace s = true.
Proof.
  induction s as [|c s IH]; simpl; [reflexivity|].
  destruct (char_isspace c); [auto | discriminate].
Qed.

Lemma strip_empty_inv (s : string) : strip s = EmptyString -> all_chars char_isspace s = true.
Proof.
  unfold strip. intros H%rstrip_empty_inv. apply lstrip_empty_inv.
  destruct (lstrip_head s) as [E | (c & r & E & Hc)]; [exact E|].
  rewrite E in H. simpl in H. rewrite Hc in H. discriminate.
Qed.

Lemma all_chars_app (p : ascii -> bool) (a b : string) :
  all_chars p (a +:+ b) = all_chars p a && all_chars p b.
Proof.
  induction a as [|c a IH]; [reflexivity|].
  rewrite app_String. simpl. rewrite IH. apply andb_assoc.
Qed.

Lemma lstrip_app_spaces (w s : string) :
  all_chars char_isspace w = true -> lstrip (w +:+ s) = lstrip s.
Proof.
  induction w as [|c w IH]; [reflexivity|].
  rewrite app_String. simpl. intros [Hc Hw]%andb_true_iff. rewrite Hc. auto.
Qed.

Lemma rstrip_app_spaces (s w : string) :
  all_chars char_isspace w = true -> rstrip (s +:+ w) = rstrip s.
Proof.
  intros Hw. induction s as [|c s IH].
  - rewrite app_empty_l. simpl. apply rstrip_spaces, Hw.
  - rewrite app_String. simpl. rewrite IH. reflexivity.
Qed.

Lemma lstrip_app_nonempty (s w : string) :
  lstrip s <> EmptyString -> lstrip (s +:+ w) = lstrip s +:+ w.
Proof.
  induction s as [|c s IH]; [intros []; reflexivity|].
  rewrite app_String. simpl. destruct (char_isspace c); [exact IH | reflexivity].
Qed.

(** Padding with white space on both sides does not change [strip]. *)
Lemma strip_padding (w1 s w2 : string) :
  all_chars char_isspace w1 = true -> all_chars char_isspace w2 = true ->
  strip (w1 +:+ s +:+ w2) = strip s.
Proof.
  intros H1 H2. unfold strip. rewrite (lstrip_app_spaces _ _ H1).
  destruct (lstrip s) as [|c r] eqn:E.
  - rewrite lstrip_spaces; [reflexivity|].
    rewrite all_chars_app, H2, (lstrip_empty_inv _ E). reflexivity.
  - rewrite lstrip_app_nonempty by (rewrite E; discriminate).
    rewrite E. apply rstrip_app_spaces, H2.
Qed.

(** A string that passes [s.replace(" ", "").isalpha()] holds a character
    that is not white space. *)
Lemma isalpha_replace_not_spaces (s : string) :
  isalpha (replace " " EmptyString s) = true -> all_chars char_isspace s = false.
Proof.
  induction s as [|c s IH]; simpl; [discriminate|].
  destruct (Ascii.eqb c " ") eqn:E.
  - rewrite app_empty_l. intros H. rewrite (IH H). apply andb_false_r.
  - intros [Hc _]%andb_true_iff. rewrite (char_isalpha_not_space _ Hc). reflexivity.
Qed.

Lemma valid_key_nonempty (s : string) :
  isalpha (replace " " EmptyString s) = true -> lower (strip s) <> EmptyString.
Proof.
  intros H E. apply lower_empty_inv, strip_empty_inv in E.
  rewrite (isalpha_replace_not_spaces _ H) in E. discriminate.
Qed.

Lemma len_positive (s : string) : (len s >? 0)%Z = true <-> s <> EmptyString.
Proof.
  unfold len. destruct s; simpl; split; try congruence; try discriminate.
  intros _. apply Z.gtb_lt. lia.
Qed.

Lemma eq_true_iff (a b : string) : eq a b = true <-> a = b.
Proof. apply String.eqb_eq. Qed.

Lemma eq_false_iff (a b : string) : eq a b = false <-> a <> b.
Proof. apply String.eqb_neq. Qed.

Lemma str_eq_refl (a : string) : eq a a = true.
Proof. apply String.eqb_refl. Qed.

Lemma contains_In (x : string) (xs : list string) : contains x xs = true <-> In x xs.
Proof.
  unfold contains. rewrite existsb_exists. split.
  - intros (y & Hy & ->%eq_true_iff). exact Hy.
  - intros H. exists x. split; [exact H | apply str_eq_refl].
Qed.

(** The order: [lt a b] is the strict part of the total order [String.le]. *)
Lemma lt_not_le (a b : string) : lt a b = true <-> ~ String.le b a.
Proof.
  unfold lt, String.ltb, String.le, String.leb.
  rewrite (String.compare_antisym b a).
  destruct (String.compare a b); simpl; intuition (auto; discriminate).
Qed.

Lemma lt_false_le (a b : string) : lt a b = false <-> String.le b a.
Proof.
  rewrite <- not_true_iff_false, lt_not_le.
  destruct (decide (String.le b a)); tauto.
Qed.

Lemma lt_irrefl (a : string) : lt a a = false.
Proof. apply lt_false_le. reflexivity. Qed.

Lemma lt_le (a b : string) : lt a b = true -> String.le a b.
Proof.
  rewrite lt_not_le. intros H. destruct (total String.le a b); tauto.
Qed.

Lemma lt_ne (a b : string) : lt a b = true -> a <> b.
Proof. intros H ->. rewrite lt_irrefl in H. discriminate. Qed.

Lemma le_lt_trans (a b c : string) : String.le a b -> lt b c = true -> lt a c = true.
Proof.
  rewrite !lt_not_le. intros Hab Hbc Hca. apply Hbc. etrans; eassumption.
Qed.

Lemma lt_le_trans (a b c : string) : lt a b = true -> String.le b c -> lt a c = true.
Proof.
  rewrite !lt_not_le. intros Hab Hbc Hca. apply Hab. etrans; eassumption.
Qed.

End PyStrFacts.

(** ** Selection sort *)

Module SelectionSort.
Import PyStr PyStrFacts.

Lemma swap_items_length (data : list string) (i m : nat) :
  length (swap_items data i m) = length data.
Proof. unfold swap_items. rewrite !length_insert. reflexivity. Qed.

Lemma swap_items_lookup (data : list string) (i m k : nat) :
  (i < length data)%nat -> (m < length data)%nat ->
  swap_items data i m !!! k =
    if decide (k = m) then data !!! i
    else if decide (k = i) then data !!! m else data !!! k.
Proof.
  intros Hi Hm. unfold swap_items.
  rewrite !list_lookup_total_insert, !length_insert.
  repeat case_decide; try reflexivity; lia.
Qed.

Lemma insert_cons_perm (l : list string) (j : nat) (a y : string) :
  l !! j = Some y -> y :: <[j := a]> l ≡ₚ a :: l.
Proof.
  revert j. induction l as [|x l IH]; intros [|j] H; simplify_eq/=.
  - apply perm_swap.
  - rewrite perm_swap, (IH j H). apply perm_swap.
Qed.

Lemma swap_perm (l : list string) (i m : nat) (x y : string) :
  l !! i = Some x -> l !! m = Some y -> <[m := x]> (<[i := y]> l) ≡ₚ l.
Proof.
  revert i m. induction l as [|z l IH]; intros [|i] [|m] Hi Hm; simplify_eq/=.
  - reflexivity.
  - apply insert_cons_perm, Hm.
  - apply insert_cons_perm, Hi.
  - apply perm_skip. eauto.
Qed.

Lemma swap_items_perm (data : list string) (i m : nat) :
  (i < length data)%nat -> (m < length data)%nat -> swap_items data i m ≡ₚ data.
Proof.
  intros Hi Hm. unfold swap_items.
  apply swap_perm; apply list_lookup_lookup_total_lt; assumption.
Qed.

(** The inner loop keeps the index of a least item among those seen. *)
Lemma min_index_loop (data : list string) (i n : nat) :
  forall a m0 : nat,
    (i <= m0 < a)%nat ->
    (forall j, (i <= j < a)%nat -> lt (data !!! j) (data !!! m0) = false) ->
    let m :=
      fold_left
        (fun min_index j =>
           if lt (data !!! j) (data !!! min_index) then j else min_index)
        (seq a n) m0 in
    (i <= m < a + n)%nat /\
    (forall j, (i <= j < a + n)%nat -> lt (data !!! j) (data !!! m) = false).
Proof.
  induction n as [|n IH]; intros a m0 Hm0 Hmin; simpl.
  - split; [lia|]. intros j Hj. apply Hmin. lia.
  - destruct (lt (data !!! a) (data !!! m0)) eqn:E.
    + destruct (IH (S a) a) as [Hr Hall]; [lia| |].
      * intros j Hj. destruct (decide (j = a)) as [->|Hne]; [apply lt_irrefl|].
        apply lt_false_le. etrans; [apply lt_le, E|].
        apply lt_false_le, Hmin. lia.
      * split; [lia|]. intros j Hj. apply Hall. lia.
    + destruct (IH (S a) m0) as [Hr Hall]; [lia| |].
      * intros j Hj. destruct (decide (j = a)) as [->|Hne]; [exact E|].
        apply Hmin. lia.
      * split; [lia|]. intros j Hj. apply Hall. lia.
Qed.

Lemma selection_min_index_spec (data : list string) (i : nat) :
  (i < length data)%nat ->
  let m := selection_min_index data i in
  (i <= m < length data)%nat /\
  (forall j, (i <= j < length data)%nat -> String.le (data !!! m) (data !!! j)).
Proof.
  intros Hi. unfold selection_min_index.
  destruct (min_index_loop data i (length data - (i + 1)) (i + 1) i) as [Hr Hall].
  - lia.
  - intros j Hj. replace j with i by lia. apply lt_irrefl.
  - split; [lia|]. intros j Hj. apply lt_false_le, Hall. lia.
Qed.

Lemma sort_inv_step (data0 data : list string) (k : nat) :
  sort_inv data0 data k -> (k < length data)%nat ->
  sort_inv data0 (swap_items data k (selection_min_index data k)) (S k).
Proof.
  intros (Hlen & Hperm & Hord) Hk.
  destruct (selection_min_index_spec data k Hk) as [Hm Hmin].
  generalize dependent (selection_min_index data k). intros m Hm Hmin.
  split; [|split].
  - rewrite swap_items_length. exact Hlen.
  - rewrite swap_items_perm by lia. exact Hperm.
  - intros a b Ha Hb. rewrite swap_items_length in Hb.
    rewrite !swap_items_lookup by lia.
    destruct (decide (a = k)) as [->|Hak].
    + assert (String.le (data !!! m) (data !!! k)) by (apply Hmin; lia).
      repeat case_decide; subst; try lia; try assumption;
        try reflexivity; apply Hmin; lia.
    + repeat case_decide; subst; try lia; apply Hord; lia.
Qed.

Lemma sort_inv_loop (data0 : list string) (n : nat) :
  forall (k : nat) (data : list string),
    sort_inv data0 data k -> (k + n = length data0)%nat ->
    sort_inv data0
      (fold_left (fun data i => swap_items data i (selection_min_index data i))
         (seq k n) data)
      (k + n).
Proof.
  induction n as [|n IH]; intros k data Hinv Hkn; simpl.
  - rewrite Nat.add_0_r. exact Hinv.
  - replace (k + S n)%nat with (S k + n)%nat by lia.
    apply IH; [|lia]. apply sort_inv_step; [exact Hinv|].
    destruct Hinv as [Hlen _]. lia.
Qed.

Lemma StronglySorted_of_lookup (l : list string) :
  (forall a b, (a < b < length l)%nat -> String.le (l !!! a) (l !!! b)) ->
  StronglySorted String.le l.
Proof.
  induction l as [|x l IH]; intros H; constructor.
  - apply IH. intros a b Hab. apply (H (S a) (S b)). simpl. lia.
  - apply Forall_lookup_2. intros b y Hy.
    pose proof (lookup_lt_Some _ _ _ Hy) as Hb.
    specialize (H 0%nat (S b)). simpl in H.
    rewrite (list_lookup_total_correct _ _ _ Hy) in H. apply H. lia.
Qed.

Lemma selection_sort_inv (data : list string) :
  sort_inv data (_selection_sort data) (length data).
Proof.
  apply (sort_inv_loop data (length data) 0 data); [|reflexivity].
  split; [reflexivity|]. split; [reflexivity|]. intros a b Ha. lia.
Qed.

Lemma selection_sort_perm (data : list string) : _selection_sort data ≡ₚ data.
Proof. apply selection_sort_inv. Qed.

Lemma selection_sort_length (data : list string) :
  length (_selection_sort data) = length data.
Proof. apply selection_sort_inv. Qed.

Lemma selection_sort_sorted (data : list string) :
  StronglySorted String.le (_selection_sort data).
Proof.
  destruct (selection_sort_inv data) as (Hlen & _ & Hord).
  apply StronglySorted_of_lookup. intros a b Hab. apply Hord; lia.
Qed.

End SelectionSort.

(** ** Binary search *)

Module BinarySearch.
Import PyStr PyStrFacts.

Lemma py_getitem_inside (l : list string) (i : Z) :
  (0 <= i < Z.of_nat (length l))%Z ->
  exists x, l !! Z.to_nat i = Some x /\ py_getitem l i = Normal x.
Proof.
  intros Hi. unfold py_getitem.
  destruct (Z.ltb_spec i 0); [lia|].
  destruct (Z.leb_spec 0 i); [|lia].
  destruct (Z.ltb_spec i (Z.of_nat (length l))); [|lia]. simpl.
  destruct (lookup_lt_is_Some_2 l (Z.to_nat i)) as [x Hx]; [lia|].
  exists x. rewrite Hx. split; reflexivity.
Qed.

Lemma StronglySorted_lookup (l : list string) (a b : nat) (x y : string) :
  StronglySorted String.le l -> (a < b)%nat ->
  l !! a = Some x -> l !! b = Some y -> String.le x y.
Proof.
  intros Hs. revert a b. induction Hs as [|z l Hs IH Hall]; intros a b Hab Ha Hb.
  - discriminate.
  - destruct b as [|b]; [lia|]. destruct a as [|a]; simplify_eq/=.
    + eapply Forall_lookup_1; eassumption.
    + apply (IH a b); [lia | assumption..].
Qed.

(** On a sorted list, when every occurrence of the target lies in the
    interval, the search ends on an occurrence, or on -1 when there is
    none. *)
Lemma binary_search_window (sorted_list : list string) (target : string) :
  StronglySorted String.le sorted_list ->
  forall (fuel : nat) (left right : Z),
    (0 <= left)%Z -> (right < Z.of_nat (length sorted_list))%Z ->
    (0 < fuel)%nat -> (right - left + 1 < Z.of_nat fuel)%Z ->
    (forall k, sorted_list !! k = Some target -> (left <= Z.of_nat k <= right)%Z) ->
    exists r,
      _binary_search fuel sorted_list target left right = Normal r /\
      ((r = (-1)%Z /\ ~ In target sorted_list) \/
       ((0 <= r)%Z /\ sorted_list !! Z.to_nat r = Some target)).
Proof.
  intros Hs. induction fuel as [|fuel IH]; intros left right Hl Hr Hpos Hf Hocc.
  - lia.
  - simpl. destruct (Z.leb_spec left right) as [Hle|Hgt].
    + set (mid := ((left + right) / 2)%Z).
      assert (left <= mid <= right)%Z as Hmid.
      { subst mid. split.
        - apply Z.div_le_lower_bound; lia.
        - apply Z.div_le_upper_bound; lia. }
      destruct (py_getitem_inside sorted_list mid) as (x & Hx & ->); [lia|]. simpl.
      destruct (eq x target) eqn:Eeq.
      * apply eq_true_iff in Eeq. subst x. exists mid. split; [reflexivity|].
        right. split; [lia | exact Hx].
      * apply eq_false_iff in Eeq. destruct (lt x target) eqn:Elt.
        -- apply IH; [lia..|]. intros k Hk. specialize (Hocc k Hk).
           destruct (decide (Z.to_nat mid < k)%nat) as [|Hn]; [lia|]. exfalso.
           destruct (decide (k = Z.to_nat mid)) as [->|Hne]; [congruence|].
           apply lt_not_le in Elt. apply Elt.
           apply (StronglySorted_lookup sorted_list k (Z.to_nat mid)); auto; lia.
        -- apply IH; [lia..|]. intros k Hk. specialize (Hocc k Hk).
           destruct (decide (k < Z.to_nat mid)%nat) as [|Hn]; [lia|]. exfalso.
           destruct (decide (k = Z.to_nat mid)) as [->|Hne]; [congruence|].
           apply lt_false_le in Elt. apply Eeq.
           apply (anti_symm String.le); [|exact Elt].
           apply (StronglySorted_lookup sorted_list (Z.to_nat mid) k); auto; lia.
    + exists (-1)%Z. split; [reflexivity|]. left. split; [reflexivity|].
      intros [k Hk]%list_elem_of_In%list_elem_of_lookup. specialize (Hocc k Hk). lia.
Qed.

(** The search over the whole of a sorted list. *)
Lemma binary_search_whole (sorted_list : list string) (target : string) (fuel : nat) :
  StronglySorted String.le sorted_list ->
  (length sorted_list < fuel)%nat ->
  exists r,
    _binary_search fuel sorted_list target 0 (Z.of_nat (length sorted_list) - 1)
      = Normal r /\
    ((r = (-1)%Z /\ ~ In target sorted_list) \/
     ((0 <= r)%Z /\ sorted_list !! Z.to_nat r = Some target)).
Proof.
  intros Hs Hf. apply binary_search_window; [assumption|lia..|].
  intros k Hk. apply lookup_lt_Some in Hk. lia.
Qed.

(** A run with enough fuel ends normally; its activations narrow and read
    inside their interval. *)
Lemma binary_search_trace_window (sorted_list : list string) (target : string) :
  forall (fuel : nat) (left right : Z),
    (0 <= left)%Z -> (right < Z.of_nat (length sorted_list))%Z ->
    (0 < fuel)%nat -> (right - left + 1 < Z.of_nat fuel)%Z ->
    exists r rd rest,
      _binary_search_trace fuel sorted_list target left right
        = (Normal r, mk_frame left right rd :: rest) /\
      _binary_search fuel sorted_list target left right = Normal r /\
      shrinking (mk_frame left right rd :: rest) /\
      Forall (frame_reads_inside (length sorted_list)) (mk_frame left right rd :: rest).
Proof.
  induction fuel as [|fuel IH]; intros left right Hl Hr Hpos Hf; [lia|].
  simpl. destruct (Z.leb_spec left right) as [Hle|Hgt].
  - set (mid := ((left + right) / 2)%Z).
    assert (left <= mid <= right)%Z as Hmid.
    { subst mid. split.
      - apply Z.div_le_lower_bound; lia.
      - apply Z.div_le_upper_bound; lia. }
    assert (frame_reads_inside (length sorted_list) (mk_frame left right (Some mid)))
      as Hhere by (unfold frame_reads_inside; simpl; lia).
    destruct (py_getitem_inside sorted_list mid) as (x & Hx & ->); [lia|]. simpl.
    destruct (eq x target).
    + exists mid, (Some mid), []. repeat split; auto.
    + destruct (lt x target).
      * destruct (IH (mid + 1)%Z right) as (r & rd & rest & -> & -> & Hsh & Hall);
          [lia..|].
        exists r, (Some mid), (mk_frame (mid + 1) right rd :: rest).
        repeat split; auto. unfold frame_width. simpl. lia.
      * destruct (IH left (mid - 1)%Z) as (r & rd & rest & -> & -> & Hsh & Hall);
          [lia..|].
        exists r, (Some mid), (mk_frame left (mid - 1) rd :: rest).
        repeat split; auto. unfold frame_width. simpl. lia.
  - exists (-1)%Z, None, []. repeat split; auto.
Qed.

End BinarySearch.

(** ** Mentor matching *)

Module MentorFacts.
Import PyStr PyStrFacts.

(** The test of the loop is the conjunction of the three conditions. *)
Lemma mentor_matches_iff (immigrant : Immigrant) (expertise : string) (mentor : Volunteer) :
  mentor_matches immigrant expertise mentor = true <->
  satisfies_conditions immigrant expertise mentor.
Proof.
  unfold mentor_matches, satisfies_conditions.
  rewrite !andb_true_iff, eq_true_iff, contains_In, in_map_iff.
  split.
  - intros [[He Ha] (lang & Hl & Hin)]. eauto 6.
  - intros (He & Ha & lang & Hin & Hl). eauto 6.
Qed.

Lemma mentor_matches_false (immigrant : Immigrant) (expertise : string) (mentor : Volunteer) :
  ~ satisfies_conditions immigrant expertise mentor ->
  mentor_matches immigrant expertise mentor = false.
Proof.
  intros H. apply not_true_is_false. rewrite mentor_matches_iff. exact H.
Qed.

Lemma first_match_sound (immigrant : Immigrant) (expertise : string) (mentors : mentors_t) :
  forall i m,
    first_match immigrant expertise mentors = Some (i, m) ->
    mentors !! i = Some m /\
    mentor_matches immigrant expertise m = true /\
    forall j mj, (j < i)%nat -> mentors !! j = Some mj ->
      mentor_matches immigrant expertise mj = false.
Proof.
  induction mentors as [|x rest IH]; intros i m; simpl; [discriminate|].
  destruct (mentor_matches immigrant expertise x) eqn:E.
  - intros [= <- <-]. repeat split; auto. intros j mj Hj. lia.
  - destruct (first_match immigrant expertise rest) as [[i' m']|]; [|discriminate].
    intros [= <- <-]. destruct (IH i' m' eq_refl) as (Hl & Hm & Hbefore).
    repeat split; auto. intros [|j] mj Hj Hmj; simplify_eq/=; [exact E|].
    apply (Hbefore j); [lia | assumption].
Qed.

Lemma first_match_complete (immigrant : Immigrant) (expertise : string) (mentors : mentors_t) :
  forall i m,
    mentors !! i = Some m ->
    mentor_matches immigrant expertise m = true ->
    (forall j mj, (j < i)%nat -> mentors !! j = Some mj ->
       mentor_matches immigrant expertise mj = false) ->
    first_match immigrant expertise mentors = Some (i, m).
Proof.
  induction mentors as [|x rest IH]; intros [|i] m Hi Hm Hbefore; simplify_eq/=.
  - rewrite Hm. reflexivity.
  - rewrite (Hbefore 0%nat x) by (simpl; auto with lia).
    rewrite (IH i m Hi Hm); [reflexivity|].
    intros j mj Hj Hmj. apply (Hbefore (S j)); [lia | exact Hmj].
Qed.

Lemma first_match_none (immigrant : Immigrant) (expertise : string) (mentors : mentors_t) :
  (forall m, In m mentors -> mentor_matches immigrant expertise m = false) ->
  first_match immigrant expertise mentors = None.
Proof.
  induction mentors as [|x rest IH]; intros H; simpl; [reflexivity|].
  rewrite (H x) by (left; reflexivity).
  rewrite IH; [reflexivity|]. intros m Hm. apply H. right. exact Hm.
Qed.

(** What [find_mentor] does to a mentor that is not available. *)
Lemma find_mentor_skips_unavailable (mentors : mentors_t) (immigrant : Immigrant)
  (expertise now : string) (i : nat) (m : Volunteer) :
  mentors !! i = Some m -> vol_availability m = false ->
  (forall w, found (find_mentor mentors immigrant expertise now) <> Some (i, w)) /\
  mentors_after (find_mentor mentors immigrant expertise now) !! i = Some m.
Proof.
  intros Hi Ha. unfold find_mentor, update_progress.
  destruct (first_match immigrant expertise mentors) as [[k mk]|] eqn:E; simpl.
  - apply first_match_sound in E as (Hk & Hmk & _).
    apply mentor_matches_iff in Hmk as (_ & Hav & _).
    assert (k <> i) as Hne by (intros ->; congruence).
    split; [intros w [= ? _]; contradiction|].
    rewrite list_lookup_insert_ne by exact Hne. exact Hi.
  - split; [discriminate | exact Hi].
Qed.

End MentorFacts.

(** ** Dictionaries and the catalog *)

Module ResourceFacts.
Import PyStr PyStrFacts.

Section Dict.
Context {V : Type}.
Implicit Types (d : dict V) (k : string) (v : V).

Lemma dict_get_set_eq d k v : dict_get (dict_set d k v) k = Some v.
Proof.
  induction d as [|[k' v'] d IH]; simpl.
  - rewrite str_eq_refl. reflexivity.
  - destruct (eq k' k) eqn:E; simpl; rewrite E; [reflexivity | exact IH].
Qed.

Lemma dict_set_set d k v v' : dict_set (dict_set d k v) k v' = dict_set d k v'.
Proof.
  induction d as [|[k0 v0] d IH]; simpl.
  - rewrite str_eq_refl. reflexivity.
  - destruct (eq k0 k) eqn:E; simpl; rewrite E; [reflexivity | rewrite IH; reflexivity].
Qed.

Lemma dict_get_In d k v : dict_get d k = Some v -> In (k, v) d.
Proof.
  induction d as [|[k' v'] d IH]; simpl; [discriminate|].
  destruct (eq k' k) eqn:E.
  - apply eq_true_iff in E. intros [= ->]. left. congruence.
  - intros H. right. auto.
Qed.

Lemma dict_get_keys d k : In k (dict_keys d) -> exists v, dict_get d k = Some v.
Proof.
  induction d as [|[k' v'] d IH]; simpl; [intros []|].
  destruct (eq k' k) eqn:E; [eauto|].
  intros [->|H]; [rewrite str_eq_refl in E; discriminate | auto].
Qed.

Lemma dict_keys_set d k v : In k (dict_keys (dict_set d k v)).
Proof.
  induction d as [|[k' v'] d IH]; simpl; [auto|].
  destruct (eq k' k) eqn:E; simpl; [|auto].
  apply eq_true_iff in E. auto.
Qed.

Lemma dict_set_In d k v k0 v0 :
  In (k0, v0) (dict_set d k v) -> (k0 = k /\ v0 = v) \/ In (k0, v0) d.
Proof.
  induction d as [|[k' v'] d IH]; simpl.
  - intros [[= <- <-]|[]]. auto.
  - destruct (eq k' k) eqn:E; simpl.
    + apply eq_true_iff in E. subst k'. intros [[= <- <-]|H]; auto.
    + intros [H|H]; [auto|]. destruct (IH H); auto.
Qed.

Lemma dict_set_length d k v : (length (dict_set d k v) <= S (length d))%nat.
Proof.
  induction d as [|[k' v'] d IH]; simpl; [lia|].
  destruct (eq k' k); simpl; lia.
Qed.

Lemma dict_contains_false d k : dict_contains d k = false -> dict_get d k = None.
Proof. unfold dict_contains. destruct (dict_get d k); [discriminate | reflexivity]. Qed.

Lemma dict_contains_true d k :
  dict_contains d k = true -> exists v, dict_get d k = Some v.
Proof. unfold dict_contains. destruct (dict_get d k); [eauto | discriminate]. Qed.

End Dict.

(** What [add_resource] does with arguments that pass the three checks. *)
Lemma add_resource_valid (resource_db : resource_db_t) (location category name : string)
  (verbose : bool) :
  isalpha (replace " " EmptyString location) = true ->
  isalpha (replace " " EmptyString category) = true ->
  strip name <> EmptyString ->
  let l := lower (strip location) in
  let c := lower (strip category) in
  let categories := categories_of resource_db l in
  add_resource resource_db location category name verbose
    = Normal (dict_set resource_db l
                (dict_set categories c (names_of categories c ++ [strip name])),
              if verbose then [ResourceAdded (strip name) c l] else []).
Proof.
  intros Hl Hc Hn l c categories. unfold add_resource.
  rewrite Hl, Hc. simpl.
  apply len_positive in Hn. rewrite Hn. simpl.
  fold l. fold c. subst categories. unfold categories_of, names_of, dict_getitem.
  destruct (dict_contains resource_db l) eqn:El; simpl.
  - apply dict_contains_true in El as [cats ->]. simpl.
    destruct (dict_contains cats c) eqn:Ec; simpl.
    + apply dict_contains_true in Ec as [names ->]. simpl. reflexivity.
    + rewrite dict_get_set_eq. simpl.
      rewrite (dict_contains_false _ _ Ec). simpl.
      rewrite dict_set_set. reflexivity.
  - rewrite dict_get_set_eq. simpl.
    rewrite (dict_contains_false _ _ El). simpl.
    rewrite (str_eq_refl c). simpl. rewrite dict_set_set. reflexivity.
Qed.

(** What [add_resource] does with arguments that fail a check. *)
Lemma add_resource_invalid (resource_db : resource_db_t) (location category name : string)
  (verbose : bool) :
  isalpha (replace " " EmptyString location) = false \/
  isalpha (replace " " EmptyString category) = false \/
  strip name = EmptyString ->
  exists text,
    add_resource resource_db location category name verbose
      = Normal (resource_db, [Printed text]).
Proof.
  intros H. unfold add_resource.
  destruct (isalpha (replace " " EmptyString location)); simpl; [|eauto].
  destruct (isalpha (replace " " EmptyString category)); simpl; [|eauto].
  destruct H as [H|[H|H]]; try discriminate.
  rewrite H. simpl. eauto.
Qed.

(** Sorting the keys and searching them finds a key that is bound. *)
Lemma locate_key {V : Type} (d : dict V) (k : string) (v : V) (fuel : nat) :
  dict_get d k = Some v -> (length d < fuel)%nat ->
  exists r,
    _binary_search fuel (_selection_sort (dict_keys d)) k 0
      (Z.of_nat (length (_selection_sort (dict_keys d))) - 1) = Normal r /\
    (r =? -1)%Z = false /\
    py_getitem (_selection_sort (dict_keys d)) r = Normal k.
Proof.
  intros Hget Hfuel.
  assert (In k (_selection_sort (dict_keys d))) as Hin.
  { apply (Permutation_in k (Permutation_sym (SelectionSort.selection_sort_perm _))).
    apply dict_get_In in Hget. apply (in_map fst) in Hget. exact Hget. }
  destruct (BinarySearch.binary_search_whole (_selection_sort (dict_keys d)) k fuel)
    as (r & Hr & [[_ Hnot] | [Hpos Hfound]]).
  - apply SelectionSort.selection_sort_sorted.
  - rewrite SelectionSort.selection_sort_length. unfold dict_keys.
    rewrite length_map. exact Hfuel.
  - contradiction.
  - exists r. split; [exact Hr|]. split; [apply Z.eqb_neq; lia|].
    pose proof (lookup_lt_Some _ _ _ Hfound) as Hlt.
    destruct (BinarySearch.py_getitem_inside (_selection_sort (dict_keys d)) r)
      as (x & Hx & ->); [lia|].
    congruence.
Qed.

(** A search for a bound location and category lists the names bound to
    them. *)
Lemma search_finds (fuel : nat) (resource_db : resource_db_t)
  (location category : string) (categories : dict (list string)) (names : list string) :
  dict_get resource_db (lower (strip location)) = Some categories ->
  dict_get categories (lower (strip category)) = Some names ->
  (length resource_db < fuel)%nat -> (length categories < fuel)%nat ->
  search_resources_by_category fuel resource_db location category
    = Normal [ResourcesListed (lower (strip location)) (lower (strip category)) names].
Proof.
  intros Hl Hc Hfl Hfc. unfold search_resources_by_category.
  destruct (locate_key resource_db _ _ fuel Hl Hfl) as (r & -> & Hr & Hitem). simpl.
  rewrite Hr, Hitem. simpl. unfold dict_getitem at 1. rewrite Hl. simpl.
  destruct (locate_key categories _ _ fuel Hc Hfc) as (r' & -> & Hr' & Hitem'). simpl.
  rewrite Hr', Hitem'. simpl. unfold dict_getitem. rewrite Hc. reflexivity.
Qed.

(** Spellings that differ by case or padding have one normal form. *)
Lemma same_normal_form (a b : string) :
  same_up_to_case_and_padding a b -> lower (strip a) = lower (strip b).
Proof.
  intros (ca & cb & (u1 & u2 & Hu1 & Hu2 & ->) & (w1 & w2 & Hw1 & Hw2 & ->) & Hcase).
  rewrite !strip_padding by assumption.
  rewrite !lower_strip, Hcase. reflexivity.
Qed.

Lemma has_non_alpha_not_isalpha (s : string) : has_non_alpha s -> isalpha s = false.
Proof.
  intros (c & Hin & Hc). destruct s as [|a s]; [reflexivity|].
  unfold isalpha. revert Hin. generalize (String a s). clear a s.
  intros s. induction s as [|a s IH]; simpl; [intros []|].
  intros [->|Hin]; [rewrite Hc; reflexivity|].
  rewrite (IH Hin). apply andb_false_r.
Qed.

Lemma only_spaces_not_isalpha (s : string) :
  all_chars (Ascii.eqb " ") s = true -> isalpha (replace " " EmptyString s) = false.
Proof.
  intros H. assert (replace " " EmptyString s = EmptyString) as ->; [|reflexivity].
  induction s as [|a s IH]; [reflexivity|].
  cbn [all_chars] in H. cbn [replace].
  apply andb_true_iff in H as [Ha Hs]. rewrite Ascii.eqb_sym in Ha. rewrite Ha.
  rewrite IH by exact Hs. reflexivity.
Qed.

(** [add_resource] keeps every key non-empty. *)
Lemma add_resource_keys_nonempty (resource_db resource_db' : resource_db_t)
  (location category name : string) (verbose : bool) (printed : list event) :
  keys_nonempty resource_db ->
  add_resource resource_db location category name verbose
    = Normal (resource_db', printed) ->
  keys_nonempty resource_db'.
Proof.
  intros Hinv Hadd.
  assert (isalpha (replace " " EmptyString location) = false \/
          isalpha (replace " " EmptyString category) = false \/
          strip name = EmptyString -> keys_nonempty resource_db') as Hrejected.
  { intros H.
    destruct (add_resource_invalid resource_db location category name verbose H)
      as [text Ht].
    rewrite Ht in Hadd. injection Hadd as <- _. exact Hinv. }
  destruct (isalpha (replace " " EmptyString location)) eqn:Hl; [|auto].
  destruct (isalpha (replace " " EmptyString category)) eqn:Hc; [|auto].
  destruct (decide (strip name = EmptyString)) as [Hn|Hn]; [auto|]. clear Hrejected.
  rewrite (add_resource_valid _ _ _ _ _ Hl Hc Hn) in Hadd. simpl in Hadd.
  injection Hadd as <- _.
  intros l cats [[-> ->]|Hin]%dict_set_In.
  - split; [apply valid_key_nonempty, Hl|].
    intros c names [[-> ->]|Hin]%dict_set_In; [apply valid_key_nonempty, Hc|].
    unfold categories_of in Hin.
    destruct (dict_get resource_db (lower (strip location))) as [cats|] eqn:E;
      simpl in Hin; [|destruct Hin].
    apply dict_get_In in E. destruct (Hinv _ _ E) as [_ Hcats]. eauto.
  - apply (Hinv _ _ Hin).
Qed.

End ResourceFacts.

(** ** The scenarios of the specification, run on the embedding *)

Example scenario_A_first_request :
  let res := find_mentor [alice] maria "language" "2024-05-01 10:00:00" in
  found res = Some (0%nat, with_availability alice false) /\
  mentors_after res = [with_availability alice false].
Proof. split; reflexivity. Qed.

Example scenario_A_second_request :
  found (find_mentor [with_availability alice false] maria "language"
           "2024-05-01 10:01:00") = None.
Proof. reflexivity. Qed.

Example scenario_B_add :
  add_resource [] "San Jose" "Health" "Clinic X" false = Normal (clinic_catalog, []).
Proof. reflexivity. Qed.

Example scenario_B_search :
  search_resources_by_category 2 clinic_catalog "san jose " " HEALTH"
    = Normal [ResourcesListed "san jose" "health" ["Clinic X"]].
Proof. reflexivity. Qed.

Example scenario_C (resource_db : resource_db_t) (verbose : bool) :
  add_resource resource_db "Inv4lid" "Health" "X" verbose
    = Normal (resource_db,
              [Printed "Invalid location: 'Inv4lid'. Ensure it contains only letters and spaces."]).
Proof. reflexivity. Qed.

Example selection_sort_run :
  _selection_sort ["pear"; "apple"; "kiwi"; "Zebra"; "fig"]
    = ["Zebra"; "apple"; "fig"; "kiwi"; "pear"].
Proof. reflexivity. Qed.

Example binary_search_first :
  _binary_search 4 ["apple"; "kiwi"; "pear"] "apple" 0 2 = Normal 0%Z.
Proof. reflexivity. Qed.

Example binary_search_last :
  _binary_search 4 ["apple"; "kiwi"; "pear"] "pear" 0 2 = Normal 2%Z.
Proof. reflexivity. Qed.

Example binary_search_between :
  _binary_search 4 ["apple"; "kiwi"; "pear"] "banana" 0 2 = Normal (-1)%Z.
Proof. reflexivity. Qed.

Example binary_search_empty_trace :
  _binary_search_trace 1 [] "apple" 0 (-1) = (Normal (-1)%Z, [mk_frame 0 (-1) None]).
Proof. reflexivity. Qed.

Example binary_search_out_of_fuel :
  _binary_search 1 ["apple"; "kiwi"; "pear"] "pear" 0 2 = OutOfFuel.
Proof. reflexivity. Qed.

(** * The claims *)

(** C8: for every list of strings, [_selection_sort] returns a permutation
    of its input arranged in ascending lexicographic order. *)
Theorem selection_sort_sorted_permutation (data : list string) :
  Permutation (_selection_sort data) data /\
  StronglySorted String.le (_selection_sort data).
Proof.
  split.
  - apply SelectionSort.selection_sort_perm.
  - apply SelectionSort.selection_sort_sorted.
Qed.

(** C4: on a list [S] of unique strings sorted in ascending order, the
    recursive binary search started with [left = 0] and [right = |S| - 1]
    returns the index [i] with [S[i] = t] when [t] is in [S], wherever it
    stands, and the sentinel [-1] when [t] is not in [S]. The recursion
    budget only has to exceed the length of the list. *)
Theorem binary_search_correct (S : list string) (t : string) (fuel : nat) :
  NoDup S -> Sorted String.le S -> (length S < fuel)%nat ->
  (forall i : nat, S !! i = Some t ->
     _binary_search fuel S t 0 (Z.of_nat (length S) - 1) = Normal (Z.of_nat i)) /\
  (~ In t S ->
     _binary_search fuel S t 0 (Z.of_nat (length S) - 1) = Normal (-1)%Z).
Proof.
  intros Hnd Hs Hf.
  apply Sorted_StronglySorted in Hs; [|intros x y z Hxy Hyz; etrans; eassumption].
  destruct (BinarySearch.binary_search_whole S t fuel Hs Hf)
    as (r & -> & [[-> Hnot] | [Hr Hfound]]).
  - split; [|reflexivity]. intros i Hi. exfalso. apply Hnot.
    apply list_elem_of_In, list_elem_of_lookup. eauto.
  - split.
    + intros i Hi. f_equal.
      rewrite <- (NoDup_lookup S _ _ t Hnd Hfound Hi). lia.
    + intros Hnot. exfalso. apply Hnot.
      apply list_elem_of_In, list_elem_of_lookup. eauto.
Qed.

Lemma binary_search_correct_witness :
  (forall i : nat, ["apple"; "kiwi"; "pear"] !! i = Some "pear" ->
     _binary_search 4 ["apple"; "kiwi"; "pear"] "pear" 0
       (Z.of_nat (length ["apple"; "kiwi"; "pear"]) - 1) = Normal (Z.of_nat i)) /\
  (~ In "pear" ["apple"; "kiwi"; "pear"] ->
     _binary_search 4 ["apple"; "kiwi"; "pear"] "pear" 0
       (Z.of_nat (length ["apple"; "kiwi"; "pear"]) - 1) = Normal (-1)%Z).
Proof.
  apply (binary_search_correct ["apple"; "kiwi"; "pear"] "pear" 4).
  - apply (bool_decide_unpack _). vm_compute. reflexivity.
  - repeat constructor.
  - simpl. lia.
Defined.

(** C10: for every list of strings [S] and every target, the recursive
    binary search started with [left = 0] and [right = |S| - 1] terminates
    within a recursion depth of [|S| + 1] and returns normally; each
    activation has a strictly narrower interval than its caller and reads
    one index, inside its interval and inside the list; on the empty list
    the only activation returns [-1] without reading. *)
Theorem binary_search_terminates (S : list string) (t : string) (fuel : nat) :
  (length S < fuel)%nat ->
  exists (r : Z) (frames : list frame),
    _binary_search fuel S t 0 (Z.of_nat (length S) - 1) = Normal r /\
    _binary_search_trace fuel S t 0 (Z.of_nat (length S) - 1) = (Normal r, frames) /\
    shrinking frames /\
    Forall (frame_reads_inside (length S)) frames /\
    (S = [] -> r = (-1)%Z /\ frames = [mk_frame 0 (-1) None]).
Proof.
  intros Hf.
  destruct (BinarySearch.binary_search_trace_window S t fuel 0 (Z.of_nat (length S) - 1))
    as (r & rd & rest & Ht & Hr & Hsh & Hall); [lia..|].
  exists r, (mk_frame 0 (Z.of_nat (length S) - 1) rd :: rest).
  split; [exact Hr|]. split; [exact Ht|]. split; [exact Hsh|]. split; [exact Hall|].
  intros ->. destruct fuel; [simpl in Hf; lia|].
  change (Z.of_nat (length (@nil string)) - 1)%Z with (-1)%Z in *.
  simpl in Hr, Ht. split; congruence.
Qed.

Lemma binary_search_terminates_witness :
  exists (r : Z) (frames : list frame),
    _binary_search 3 ["kiwi"; "apple"] "pear" 0 (Z.of_nat (length ["kiwi"; "apple"]) - 1)
      = Normal r /\
    _binary_search_trace 3 ["kiwi"; "apple"] "pear" 0
      (Z.of_nat (length ["kiwi"; "apple"]) - 1) = (Normal r, frames) /\
    shrinking frames /\
    Forall (frame_reads_inside (length ["kiwi"; "apple"])) frames /\
    (["kiwi"; "apple"] = [] -> r = (-1)%Z /\ frames = [mk_frame 0 (-1) None]).
Proof.
  apply (binary_search_terminates ["kiwi"; "apple"] "pear" 3). simpl. lia.
Defined.

(** C2: [find_mentor] scans the registry in insertion order and returns the
    first mentor that satisfies the three conditions (expertise equal up to
    case, available, wanted language among the mentor's languages up to
    case): when the mentor at position [i] satisfies them and no mentor
    before it does, the call returns that mentor, sets its availability to
    false (the mentor returned and the entry at [i] have the flag [false]
    and the other attributes of the winner; every other entry is kept), and
    appends to the log of the immigrant one entry, whose detail holds the
    name of the mentor. *)
Theorem find_mentor_first_fit (mentors : mentors_t) (immigrant : Immigrant)
  (expertise now : string) (i : nat) (mentor : Volunteer) :
  mentors !! i = Some mentor ->
  satisfies_conditions immigrant expertise mentor ->
  (forall j mj, (j < i)%nat -> mentors !! j = Some mj ->
     ~ satisfies_conditions immigrant expertise mj) ->
  let res := find_mentor mentors immigrant expertise now in
  let winner :=
    mk_Volunteer (vol_name mentor) (vol_email mentor) (vol_expertise mentor)
      (vol_available_languages mentor) false in
  found res = Some (i, with_availability mentor false) /\
  mentors_after res = <[i := with_availability mentor false]> mentors /\
  mentors_after res !! i = Some (with_availability mentor false) /\
  imm_progress_log (immigrant_after res)
    = imm_progress_log immigrant
      ++ [mk_log_entry "Mentor Matched" ("Matched with " +:+ vol_name mentor) now] /\
  found res = Some (i, winner) /\
  mentors_after res !! i = Some winner /\
  vol_availability <$> mentors_after res !! i = Some false /\
  (fun returned => vol_availability (snd returned)) <$> found res = Some false /\
  (forall j, j <> i -> mentors_after res !! j = mentors !! j).
Proof.
  intros Hi Hsat Hbefore res winner. subst res winner. unfold find_mentor.
  rewrite (MentorFacts.first_match_complete immigrant expertise mentors i mentor).
  - pose proof (lookup_lt_Some _ _ _ Hi) as Hlt. simpl.
    assert (<[i := with_availability mentor false]> mentors !! i
            = Some (with_availability mentor false)) as Hat
      by (apply list_lookup_insert_eq, Hlt).
    split; [reflexivity|]. split; [reflexivity|]. split; [exact Hat|].
    split; [reflexivity|]. split; [reflexivity|]. split; [exact Hat|].
    split; [rewrite Hat; reflexivity|]. split; [reflexivity|].
    intros j Hj. apply list_lookup_insert_ne. congruence.
  - exact Hi.
  - apply MentorFacts.mentor_matches_iff, Hsat.
  - intros j mj Hj Hmj. apply MentorFacts.mentor_matches_false. eauto.
Qed.

(** C5: when no mentor of the registry satisfies the three conditions,
    [find_mentor] returns [None] as an ordinary result, leaves the registry
    and the immigrant (so the progress log) as they were, and only prints
    that no mentor is available. *)
Theorem find_mentor_no_match (mentors : mentors_t) (immigrant : Immigrant)
  (expertise now : string) :
  (forall m, In m mentors -> ~ satisfies_conditions immigrant expertise m) ->
  find_mentor mentors immigrant expertise now
    = mk_find_result None mentors immigrant [Printed "No mentor available."].
Proof.
  intros Hnone. unfold find_mentor.
  rewrite MentorFacts.first_match_none; [reflexivity|].
  intros m Hm. apply MentorFacts.mentor_matches_false. auto.
Qed.

Lemma find_mentor_first_fit_witness :
  let res := find_mentor [charlie; alice] maria "language" "2024-05-01 10:00:00" in
  let winner :=
    mk_Volunteer (vol_name alice) (vol_email alice) (vol_expertise alice)
      (vol_available_languages alice) false in
  found res = Some (1%nat, with_availability alice false) /\
  mentors_after res = <[1%nat := with_availability alice false]> [charlie; alice] /\
  mentors_after res !! 1%nat = Some (with_availability alice false) /\
  imm_progress_log (immigrant_after res)
    = imm_progress_log maria
      ++ [mk_log_entry "Mentor Matched" ("Matched with " +:+ vol_name alice)
            "2024-05-01 10:00:00"] /\
  found res = Some (1%nat, winner) /\
  mentors_after res !! 1%nat = Some winner /\
  vol_availability <$> mentors_after res !! 1%nat = Some false /\
  (fun returned => vol_availability (snd returned)) <$> found res = Some false /\
  (forall j, j <> 1%nat -> mentors_after res !! j = [charlie; alice] !! j).
Proof.
  apply (find_mentor_first_fit [charlie; alice] maria "language"
           "2024-05-01 10:00:00" 1 alice).
  - reflexivity.
  - split; [reflexivity|]. split; [reflexivity|].
    exists "spanish". split; [simpl; auto | reflexivity].
  - intros j mj Hj Hmj [He _].
    destruct j as [|j]; [|lia]. simpl in Hmj. injection Hmj as <-.
    vm_compute in He. discriminate He.
Defined.

Lemma find_mentor_no_match_witness :
  find_mentor [with_availability alice false; charlie] maria "language"
      "2024-05-01 10:05:00"
    = mk_find_result None [with_availability alice false; charlie] maria
        [Printed "No mentor available."].
Proof.
  apply (find_mentor_no_match [with_availability alice false; charlie] maria
           "language" "2024-05-01 10:05:00").
  intros m [<- | [<- | []]] (He & Ha & _).
  - vm_compute in Ha. discriminate Ha.
  - vm_compute in He. discriminate He.
Defined.

(** C1, as the specification states it, fails: [add_mentor] makes no check
    on the contact. A record whose contact is already present, up to case,
    is appended like any other and nothing is reported. *)
Lemma add_mentor_duplicate_counterexample :
  email_present [alice] (vol_email alice_again) /\
  add_mentor [alice] (VolunteerObj alice_again) false = ([alice; alice_again], []) /\
  fst (add_mentor [alice] (VolunteerObj alice_again) false) <> [alice].
Proof.
  split; [|split].
  - exists alice. split; [left; reflexivity | reflexivity].
  - reflexivity.
  - discriminate.
Qed.

(** C1, amended: for every registry and every mentor record, whether or not
    its contact is already present, [add_mentor] appends the record at the
    end of the registry and returns normally; it reports nothing unless
    [verbose] is set. Only an object that is not a [Volunteer] is refused,
    with a printed message and the registry unchanged. *)
Theorem add_mentor_appends (mentors : mentors_t) (v : Volunteer) (verbose : bool) :
  add_mentor mentors (VolunteerObj v) verbose
    = (mentors ++ [v], if verbose then [MentorAdded v] else []) /\
  In v (fst (add_mentor mentors (VolunteerObj v) verbose)) /\
  length (fst (add_mentor mentors (VolunteerObj v) verbose)) = S (length mentors) /\
  take (length mentors) (fst (add_mentor mentors (VolunteerObj v) verbose)) = mentors /\
  fst (add_mentor mentors OtherObj verbose) = mentors /\
  snd (add_mentor mentors OtherObj verbose) <> [].
Proof.
  simpl. repeat split.
  - apply in_or_app. right. left. reflexivity.
  - rewrite length_app. simpl. lia.
  - apply take_app_length.
  - discriminate.
Qed.

(** C7, as the specification states it, fails: a mentor can be unavailable
    without any match event. A mentor who registers as not available is in
    the registry of a reachable state, and no log names them. *)
Lemma unavailable_without_match_counterexample :
  reachable (mk_system [dana_off] []) /\
  In dana_off (sys_mentors (mk_system [dana_off] [])) /\
  vol_availability dana_off = false /\
  match_events (mk_system [dana_off] []) dana_off = 0%nat /\
  ~ unavailable_matched_once (mk_system [dana_off] []).
Proof.
  split; [exists [AddMentor dana_off]; reflexivity|].
  split; [left; reflexivity|]. split; [reflexivity|]. split; [reflexivity|].
  intros H. specialize (H dana_off (or_introl eq_refl) eq_refl).
  vm_compute in H. discriminate H.
Qed.

Lemma with_availability_same (m : Volunteer) (status : bool) :
  vol_availability m = status -> with_availability m status = m.
Proof. destruct m. simpl. intros ->. reflexivity. Qed.

(** One action that is not the re-enabling of mentor [i] leaves that mentor
    unavailable and does not return it. *)
Lemma unavailable_step (s : system) (a : action) (i : nat) (m : Volunteer) :
  sys_mentors s !! i = Some m -> vol_availability m = false ->
  a <> SetAvailability i true ->
  sys_mentors (fst (apply_action s a)) !! i = Some m /\
  snd (apply_action s a) <> Some i.
Proof.
  intros Hi Ha Hne. destruct a as [v | imm | j status | k expertise now]; simpl.
  - split; [|discriminate]. apply lookup_app_l_Some. exact Hi.
  - split; [exact Hi | discriminate].
  - destruct (sys_mentors s !! j) as [mj|] eqn:Hj; simpl;
      [|split; [exact Hi | discriminate]].
    split; [|discriminate].
    destruct (decide (j = i)) as [->|Hji].
    + assert (mj = m) as -> by congruence.
      destruct status; [congruence|].
      rewrite with_availability_same by exact Ha.
      rewrite list_insert_id; assumption.
    + rewrite list_lookup_insert_ne; assumption.
  - destruct (sys_immigrants s !! k) as [immigrant|]; simpl;
      [|split; [exact Hi | discriminate]].
    destruct (MentorFacts.find_mentor_skips_unavailable (sys_mentors s) immigrant
                expertise now i m Hi Ha) as [Hnot Hkeep].
    split; [exact Hkeep|].
    destruct (found (find_mentor (sys_mentors s) immigrant expertise now))
      as [[k' w]|]; simpl; [|discriminate].
    intros [= ->]. apply (Hnot w). reflexivity.
Qed.

(** C7, amended: in every state of the session, a mentor whose availability
    is false is never returned by [find_mentor], and stays as it is, through
    any sequence of registrations, status updates and searches that does not
    re-enable that mentor by a status update. (That an unavailable mentor has
    exactly one match event is not promised: a mentor can register as, or
    set itself, unavailable.) *)
Theorem unavailable_mentor_never_matched (s : system) (actions : list action)
  (i : nat) (m : Volunteer) :
  sys_mentors s !! i = Some m -> vol_availability m = false ->
  Forall (fun a => a <> SetAvailability i true) actions ->
  sys_mentors (fst (run s actions)) !! i = Some m /\
  Forall (fun r => r <> Some i) (snd (run s actions)).
Proof.
  intros Hi Ha Hall. revert s Hi.
  induction Hall as [|a rest Hne Hrest IH]; intros s Hi; simpl.
  - split; [exact Hi | constructor].
  - destruct (unavailable_step s a i m Hi Ha Hne) as [Hkeep Hret].
    destruct (apply_action s a) as [s1 r]. simpl in Hkeep, Hret.
    destruct (IH s1 Hkeep) as [Hfinal Hrets].
    destruct (run s1 rest) as [s2 rs]. simpl in *.
    split; [exact Hfinal | constructor; assumption].
Qed.

Lemma unavailable_mentor_never_matched_witness :
  sys_mentors
    (fst (run (mk_system [dana_off; alice] [maria])
            [FindMentor 0 "health" "2024-05-01 10:00:00";
             SetAvailability 1 false;
             FindMentor 0 "language" "2024-05-01 10:01:00"])) !! 0%nat
    = Some dana_off /\
  Forall (fun r => r <> Some 0%nat)
    (snd (run (mk_system [dana_off; alice] [maria])
            [FindMentor 0 "health" "2024-05-01 10:00:00";
             SetAvailability 1 false;
             FindMentor 0 "language" "2024-05-01 10:01:00"])).
Proof.
  apply (unavailable_mentor_never_matched (mk_system [dana_off; alice] [maria])
           [FindMentor 0 "health" "2024-05-01 10:00:00";
            SetAvailability 1 false;
            FindMentor 0 "language" "2024-05-01 10:01:00"] 0 dana_off).
  - reflexivity.
  - reflexivity.
  - repeat constructor; discriminate.
Defined.

(** C3, as the specification states it, fails for a name with white space
    around it: the catalog stores the trimmed name, so the sequence found
    by the search holds the trimmed name and not the name as given. *)
Lemma add_then_search_untrimmed_counterexample :
  PyStr.isalpha (PyStr.replace " " EmptyString "San Jose") = true /\
  PyStr.isalpha (PyStr.replace " " EmptyString "Health") = true /\
  PyStr.strip " Clinic X " <> EmptyString /\
  add_resource [] "San Jose" "Health" " Clinic X " false = Normal (clinic_catalog, []) /\
  search_resources_by_category 2 clinic_catalog "San Jose" "Health"
    = Normal [ResourcesListed "san jose" "health" ["Clinic X"]] /\
  ~ In " Clinic X " ["Clinic X"].
Proof.
  repeat split; try reflexivity.
  - discriminate.
  - intros [H|[]]. discriminate H.
Qed.

(** C3, amended: for every catalog, every location and category that pass
    the check of [add_resource] and every name that is not empty after
    trimming, [add_resource(loc, cat, name)] followed by
    [search_resources_by_category(loc', cat')], where [loc'] and [cat']
    differ from [loc] and [cat] only by case or surrounding white space,
    lists the bucket of the trimmed, lower-case keys, and that sequence
    holds the trimmed name. This is so for every recursion budget from some
    bound on. *)
Theorem add_then_search_finds (resource_db : resource_db_t)
  (loc cat name : string) (verbose : bool) (loc' cat' : string) :
  PyStr.isalpha (PyStr.replace " " EmptyString loc) = true ->
  PyStr.isalpha (PyStr.replace " " EmptyString cat) = true ->
  PyStr.strip name <> EmptyString ->
  same_up_to_case_and_padding loc loc' ->
  same_up_to_case_and_padding cat cat' ->
  exists resource_db' printed,
    add_resource resource_db loc cat name verbose = Normal (resource_db', printed) /\
    exists budget, forall fuel, (budget <= fuel)%nat ->
      exists resources,
        search_resources_by_category fuel resource_db' loc' cat'
          = Normal [ResourcesListed (PyStr.lower (PyStr.strip loc))
                      (PyStr.lower (PyStr.strip cat)) resources] /\
        In (PyStr.strip name) resources.
Proof.
  intros Hl Hc Hn Hloc%ResourceFacts.same_normal_form Hcat%ResourceFacts.same_normal_form.
  eexists _, _. split; [apply ResourceFacts.add_resource_valid; assumption|].
  set (l := PyStr.lower (PyStr.strip loc)) in *.
  set (c := PyStr.lower (PyStr.strip cat)) in *.
  set (names := names_of (categories_of resource_db l) c ++ [PyStr.strip name]).
  set (categories := dict_set (categories_of resource_db l) c names) in *.
  exists (S (Nat.max (length (dict_set resource_db l categories)) (length categories))).
  intros fuel Hfuel. exists names. split.
  - rewrite (ResourceFacts.search_finds fuel _ loc' cat' categories names).
    + rewrite <- Hloc, <- Hcat. reflexivity.
    + rewrite <- Hloc. apply ResourceFacts.dict_get_set_eq.
    + rewrite <- Hcat. apply ResourceFacts.dict_get_set_eq.
    + lia.
    + lia.
  - apply in_or_app. right. left. reflexivity.
Qed.

Lemma add_then_search_finds_witness :
  exists resource_db' printed,
    add_resource clinic_catalog " San Jose" "Legal" " Legal Aid " false
      = Normal (resource_db', printed) /\
    exists budget, forall fuel, (budget <= fuel)%nat ->
      exists resources,
        search_resources_by_category fuel resource_db' "SAN JOSE  " " legal"
          = Normal [ResourcesListed (PyStr.lower (PyStr.strip " San Jose"))
                      (PyStr.lower (PyStr.strip "Legal")) resources] /\
        In (PyStr.strip " Legal Aid ") resources.
Proof.
  apply (add_then_search_finds clinic_catalog " San Jose" "Legal" " Legal Aid " false
           "SAN JOSE  " " legal").
  - reflexivity.
  - reflexivity.
  - discriminate.
  - exists "San Jose", "SAN JOSE". split; [|split].
    + exists " ", EmptyString. repeat split.
    + exists EmptyString, "  ". repeat split.
    + reflexivity.
  - exists "Legal", "legal". split; [|split].
    + exists EmptyString, EmptyString. repeat split.
    + exists " ", EmptyString. repeat split.
    + reflexivity.
Defined.

(** C6: when the location or the category, with its spaces removed, holds a
    character that is not a letter, or when the name is empty after
    trimming, [add_resource] prints one message and leaves the catalog as it
    was. *)
Theorem add_resource_rejects_invalid (resource_db : resource_db_t)
  (location category name : string) (verbose : bool) :
  has_non_alpha (PyStr.replace " " EmptyString location) \/
  has_non_alpha (PyStr.replace " " EmptyString category) \/
  PyStr.strip name = EmptyString ->
  exists text,
    add_resource resource_db location category name verbose
      = Normal (resource_db, [Printed text]).
Proof.
  intros H. apply ResourceFacts.add_resource_invalid.
  destruct H as [H|[H|H]]; auto using ResourceFacts.has_non_alpha_not_isalpha.
Qed.

Lemma add_resource_rejects_invalid_witness :
  exists text,
    add_resource clinic_catalog "Inv4lid" "Health" "X" false
      = Normal (clinic_catalog, [Printed text]).
Proof.
  apply (add_resource_rejects_invalid clinic_catalog "Inv4lid" "Health" "X" false).
  left. exists "4"%char. split; [simpl; auto | reflexivity].
Defined.

(** C9: in every catalog built from the empty one by calls of
    [add_resource], no location key and no category key is the empty
    string; a location or a category that is empty or made of spaces only
    is refused, with the catalog unchanged. *)
Theorem reachable_keys_nonempty (resource_db : resource_db_t) :
  catalog_reachable resource_db ->
  keys_nonempty resource_db /\
  forall location category name verbose,
    PyStr.all_chars (Ascii.eqb " ") location = true \/
    PyStr.all_chars (Ascii.eqb " ") category = true ->
    exists text,
      add_resource resource_db location category name verbose
        = Normal (resource_db, [Printed text]).
Proof.
  intros Hreach. split.
  - induction Hreach as [|db db' location category name verbose printed _ IH Hadd].
    + intros l cats [].
    + eapply ResourceFacts.add_resource_keys_nonempty; eassumption.
  - intros location category name verbose H.
    apply ResourceFacts.add_resource_invalid.
    destruct H as [H|H]; auto using ResourceFacts.only_spaces_not_isalpha.
Qed.

Lemma reachable_keys_nonempty_witness :
  keys_nonempty clinic_catalog /\
  forall location category name verbose,
    PyStr.all_chars (Ascii.eqb " ") location = true \/
    PyStr.all_chars (Ascii.eqb " ") category = true ->
    exists text,
      add_resource clinic_catalog location category name verbose
        = Normal (clinic_catalog, [Printed text]).
Proof.
  apply (reachable_keys_nonempty clinic_catalog).
  apply (reach_add [] clinic_catalog "San Jose" "Health" "Clinic X" false []).
  - apply reach_empty.
  - reflexivity.
Defined.

(** * Further properties *)

(** ** Normal forms of strings *)

Module PyStrMore.
Import PyStr PyStrFacts.

Lemma lower_idemp (s : string) : lower (lower s) = lower s.
Proof.
  induction s as [|c s IH]; simpl; [reflexivity|].
  rewrite char_lower_idemp, IH. reflexivity.
Qed.

Lemma rstrip_idemp (s : string) : rstrip (rstrip s) = rstrip s.
Proof.
  induction s as [|c s IH]; simpl; [reflexivity|].
  destruct (rstrip s) as [|d r] eqn:E.
  - destruct (char_isspace c) eqn:Hc; simpl; [reflexivity|]. rewrite Hc. reflexivity.
  - simpl in *. rewrite IH. reflexivity.
Qed.

Lemma rstrip_head (c : ascii) (s : string) :
  char_isspace c = false -> exists r, rstrip (String c s) = String c r.
Proof.
  intros Hc. simpl. destruct (rstrip s); rewrite ?Hc; eauto.
Qed.

Lemma strip_idemp (s : string) : strip (strip s) = strip s.
Proof.
  unfold strip. destruct (lstrip_head s) as [E | (c & r & E & Hc)]; rewrite E.
  - reflexivity.
  - destruct (rstrip_head c r Hc) as [r' Hr]. rewrite Hr.
    simpl lstrip. rewrite Hc. rewrite <- Hr. apply rstrip_idemp.
Qed.

(** The normal form of a key, [s.strip().lower()], is its own normal form. *)
Lemma normal_form_idemp (s : string) :
  lower (strip (lower (strip s))) = lower (strip s).
Proof. rewrite <- lower_strip, strip_idemp, lower_idemp. reflexivity. Qed.

End PyStrMore.

(** ** The catalog *)

Module ResourceMore.
Import PyStr PyStrFacts PyStrMore ResourceFacts.

Section Dict.
Context {V : Type}.
Implicit Types (d : dict V) (k : string) (v : V).

Lemma dict_get_set_ne d k k' v : k <> k' -> dict_get (dict_set d k v) k' = dict_get d k'.
Proof.
  intros Hne. induction d as [|[k0 v0] d IH]; simpl.
  - apply eq_false_iff in Hne. rewrite Hne. reflexivity.
  - destruct (eq k0 k) eqn:E; simpl.
    + apply eq_true_iff in E. subst k0.
      apply eq_false_iff in Hne. rewrite Hne. reflexivity.
    + rewrite IH. reflexivity.
Qed.

Lemma dict_get_None_keys d k : dict_get d k = None -> ~ In k (dict_keys d).
Proof.
  intros Hnone Hin. destruct (dict_get_keys d k Hin) as [v Hv]. congruence.
Qed.

Lemma dict_keys_set_eq d k v :
  dict_keys (dict_set d k v)
    = if dict_contains d k then dict_keys d else dict_keys d ++ [k].
Proof.
  unfold dict_contains. induction d as [|[k0 v0] d IH]; simpl; [reflexivity|].
  destruct (eq k0 k) eqn:E; simpl; [reflexivity|].
  rewrite IH. destruct (dict_get d k); reflexivity.
Qed.

Lemma dict_set_NoDup d k v : NoDup (dict_keys d) -> NoDup (dict_keys (dict_set d k v)).
Proof.
  intros Hnd. rewrite dict_keys_set_eq. unfold dict_contains.
  destruct (dict_get d k) eqn:E; [exact Hnd|].
  apply NoDup_app. split; [exact Hnd|]. split.
  - intros x Hx [<-|[]]%list_elem_of_In. apply (dict_get_None_keys d k E).
    apply list_elem_of_In, Hx.
  - apply NoDup_singleton.
Qed.

Lemma dict_set_nonempty d k v : dict_set d k v <> [].
Proof. destruct d as [|[k0 v0] d]; simpl; [|destruct (eq k0 k)]; discriminate. Qed.

End Dict.

(** A key that is not bound is not found by the sort and the search. *)
Lemma locate_key_absent {V : Type} (d : dict V) (k : string) (fuel : nat) :
  dict_get d k = None -> (length d < fuel)%nat ->
  _binary_search fuel (_selection_sort (dict_keys d)) k 0
    (Z.of_nat (length (_selection_sort (dict_keys d))) - 1) = Normal (-1)%Z.
Proof.
  intros Hnone Hfuel.
  destruct (BinarySearch.binary_search_whole (_selection_sort (dict_keys d)) k fuel)
    as (r & Hr & [[-> _] | [_ Hfound]]).
  - apply SelectionSort.selection_sort_sorted.
  - rewrite SelectionSort.selection_sort_length. unfold dict_keys.
    rewrite length_map. exact Hfuel.
  - exact Hr.
  - exfalso. apply (dict_get_None_keys d k Hnone).
    apply (Permutation_in k (SelectionSort.selection_sort_perm _)).
    apply list_elem_of_In, list_elem_of_lookup. eauto.
Qed.

Lemma categories_of_In (resource_db : resource_db_t) (l c : string) (names : list string) :
  In (c, names) (categories_of resource_db l) ->
  exists l', In (l', categories_of resource_db l) resource_db.
Proof.
  unfold categories_of. destruct (dict_get resource_db l) as [cats|] eqn:E; simpl.
  - intros _. exists l. apply dict_get_In, E.
  - intros [].
Qed.

Lemma names_of_In (categories : dict (list string)) (c n : string) :
  In n (names_of categories c) -> In (c, names_of categories c) categories.
Proof.
  unfold names_of. destruct (dict_get categories c) as [names|] eqn:E; simpl.
  - intros _. apply dict_get_In, E.
  - intros [].
Qed.

(** The catalog after a call of [add_resource], whatever the arguments. *)
Lemma add_resource_cases (resource_db resource_db' : resource_db_t)
  (location category name : string) (verbose : bool) (printed : list event) :
  add_resource resource_db location category name verbose
    = Normal (resource_db', printed) ->
  resource_db' = resource_db \/
  (isalpha (replace " " EmptyString location) = true /\
   isalpha (replace " " EmptyString category) = true /\
   strip name <> EmptyString /\
   resource_db' =
     dict_set resource_db (lower (strip location))
       (dict_set (categories_of resource_db (lower (strip location)))
          (lower (strip category))
          (bucket resource_db (lower (strip location)) (lower (strip category))
           ++ [strip name]))).
Proof.
  intros Hadd.
  assert (isalpha (replace " " EmptyString location) = false \/
          isalpha (replace " " EmptyString category) = false \/
          strip name = EmptyString -> resource_db' = resource_db) as Hrejected.
  { intros H.
    destruct (add_resource_invalid resource_db location category name verbose H)
      as [text Ht].
    rewrite Ht in Hadd. injection Hadd as <- _. reflexivity. }
  destruct (isalpha (replace " " EmptyString location)) eqn:Hl; [|auto].
  destruct (isalpha (replace " " EmptyString category)) eqn:Hc; [|auto].
  destruct (decide (strip name = EmptyString)) as [Hn|Hn]; [auto|]. right.
  rewrite (add_resource_valid _ _ _ _ _ Hl Hc Hn) in Hadd. simpl in Hadd.
  injection Hadd as <- _. auto.
Qed.

Lemma add_resource_keys_normal_unique (resource_db resource_db' : resource_db_t)
  (location category name : string) (verbose : bool) (printed : list event) :
  keys_normal_unique resource_db ->
  add_resource resource_db location category name verbose
    = Normal (resource_db', printed) ->
  keys_normal_unique resource_db'.
Proof.
  intros [Hnd Hinv] Hadd.
  destruct (add_resource_cases _ _ _ _ _ _ _ Hadd) as [->|(Hl & Hc & Hn & ->)];
    [split; assumption|].
  set (l := lower (strip location)). set (c := lower (strip category)).
  assert (normal_key l) as Hnl by apply normal_form_idemp.
  assert (normal_key c) as Hnc by apply normal_form_idemp.
  assert (NoDup (dict_keys (categories_of resource_db l)) /\
          forall c' names, In (c', names) (categories_of resource_db l) -> normal_key c')
    as [Hcnd Hcinv].
  { unfold categories_of. destruct (dict_get resource_db l) as [cats|] eqn:E; simpl.
    - apply dict_get_In in E. destruct (Hinv _ _ E) as (_ & H1 & H2). auto.
    - split; [constructor | intros c' names []]. }
  split; [apply dict_set_NoDup, Hnd|].
  intros l' cats [[-> ->]|Hin]%dict_set_In; [|apply (Hinv _ _ Hin)].
  split; [exact Hnl|]. split; [apply dict_set_NoDup, Hcnd|].
  intros c' names [[-> _]|Hin]%dict_set_In; [exact Hnc | eauto].
Qed.

Lemma add_resource_buckets_filled (resource_db resource_db' : resource_db_t)
  (location category name : string) (verbose : bool) (printed : list event) :
  buckets_filled resource_db ->
  add_resource resource_db location category name verbose
    = Normal (resource_db', printed) ->
  buckets_filled resource_db'.
Proof.
  intros Hinv Hadd.
  destruct (add_resource_cases _ _ _ _ _ _ _ Hadd) as [->|(Hl & Hc & Hn & ->)];
    [assumption|].
  set (l := lower (strip location)). set (c := lower (strip category)).
  intros l' cats [[-> ->]|Hin]%dict_set_In; [|apply (Hinv _ _ Hin)].
  split; [apply dict_set_nonempty|].
  intros c' names [[-> ->]|Hin]%dict_set_In.
  - split; [destruct (bucket resource_db l c); discriminate|].
    intros n [Hn0|[<-|[]]]%in_app_or; [|split; [exact Hn | apply strip_idemp]].
    unfold bucket in Hn0. pose proof (names_of_In _ _ _ Hn0) as Hb.
    destruct (categories_of_In _ _ _ _ Hb) as [l0 Hl0].
    destruct (Hinv _ _ Hl0) as [_ Hcats].
    destruct (Hcats _ _ Hb) as [_ Hnames]. auto.
  - destruct (categories_of_In _ _ _ _ Hin) as [l0 Hl0].
    destruct (Hinv _ _ Hl0) as [_ Hcats]. eauto.
Qed.

End ResourceMore.

(** X1: with a recursion budget that covers the keys, the sort and the two
    binary searches of [search_resources_by_category] answer exactly as a
    direct look-up of the normalized location and category in the nested
    dictionary: the bucket when both keys are bound, the message about the
    category when only the location is, the message about the location
    otherwise. No exception leaves the function. *)
Theorem search_by_category_is_lookup (fuel : nat) (resource_db : resource_db_t)
  (location category : string) :
  fuel_covers fuel resource_db ->
  search_resources_by_category fuel resource_db location category
    = Normal [category_lookup resource_db (PyStr.lower (PyStr.strip location))
                (PyStr.lower (PyStr.strip category))].
Proof.
  intros [Hf1 Hf2]. unfold category_lookup.
  destruct (dict_get resource_db (PyStr.lower (PyStr.strip location)))
    as [categories|] eqn:El.
  - pose proof (Hf2 _ _ (ResourceFacts.dict_get_In _ _ _ El)) as Hfc.
    destruct (dict_get categories (PyStr.lower (PyStr.strip category)))
      as [names|] eqn:Ec.
    + apply (ResourceFacts.search_finds fuel resource_db location category
               categories names); assumption.
    + unfold search_resources_by_category.
      destruct (ResourceFacts.locate_key resource_db _ _ fuel El Hf1)
        as (r & -> & Hr & Hitem). simpl.
      rewrite Hr, Hitem. simpl. unfold dict_getitem. rewrite El. simpl.
      rewrite (ResourceMore.locate_key_absent categories _ fuel Ec Hfc). reflexivity.
  - unfold search_resources_by_category.
    rewrite (ResourceMore.locate_key_absent resource_db _ fuel El Hf1). reflexivity.
Qed.

Lemma search_by_category_is_lookup_witness :
  search_resources_by_category 2 clinic_catalog " San Jose " "Legal"
    = Normal [category_lookup clinic_catalog (PyStr.lower (PyStr.strip " San Jose "))
                (PyStr.lower (PyStr.strip "Legal"))].
Proof.
  apply (search_by_category_is_lookup 2 clinic_catalog " San Jose " "Legal").
  split; [simpl; lia|].
  intros l cats [[= <- <-]|[]]. simpl. lia.
Defined.

(** X2: with a recursion budget above the number of locations,
    [search_resources_by_location] answers as a direct look-up of the
    normalized location: a header and one line per category, in the order
    in which the categories were first added, or the message that nothing
    was found. *)
Theorem search_by_location_is_lookup (fuel : nat) (resource_db : resource_db_t)
  (location : string) :
  (length resource_db < fuel)%nat ->
  search_resources_by_location fuel resource_db location
    = Normal (location_lookup resource_db (PyStr.lower (PyStr.strip location))).
Proof.
  intros Hf. unfold location_lookup, search_resources_by_location.
  destruct (dict_get resource_db (PyStr.lower (PyStr.strip location)))
    as [categories|] eqn:El.
  - destruct (ResourceFacts.locate_key resource_db _ _ fuel El Hf)
      as (r & -> & Hr & Hitem). simpl.
    rewrite Hr, Hitem. simpl. unfold dict_getitem. rewrite El. reflexivity.
  - rewrite (ResourceMore.locate_key_absent resource_db _ fuel El Hf). reflexivity.
Qed.

Lemma search_by_location_is_lookup_witness :
  search_resources_by_location 2 clinic_catalog "san jose "
    = Normal (location_lookup clinic_catalog (PyStr.lower (PyStr.strip "san jose "))).
Proof.
  apply (search_by_location_is_lookup 2 clinic_catalog "san jose "). simpl. lia.
Defined.

(** X3: a call of [add_resource] that passes the checks appends the trimmed
    name at the end of the bucket of the normalized location and category
    and changes no other bucket; the locations keep their order, and a new
    location goes last. *)
Theorem add_resource_frame (resource_db : resource_db_t)
  (location category name : string) (verbose : bool) :
  PyStr.isalpha (PyStr.replace " " EmptyString location) = true ->
  PyStr.isalpha (PyStr.replace " " EmptyString category) = true ->
  PyStr.strip name <> EmptyString ->
  let l := PyStr.lower (PyStr.strip location) in
  let c := PyStr.lower (PyStr.strip category) in
  exists resource_db' printed,
    add_resource resource_db location category name verbose
      = Normal (resource_db', printed) /\
    bucket resource_db' l c = bucket resource_db l c ++ [PyStr.strip name] /\
    (forall l' c', l' <> l \/ c' <> c ->
       bucket resource_db' l' c' = bucket resource_db l' c') /\
    dict_keys resource_db'
      = dict_keys resource_db ++ (if dict_contains resource_db l then [] else [l]).
Proof.
  intros Hl Hc Hn l c.
  eexists _, _. split; [apply ResourceFacts.add_resource_valid; assumption|].
  fold l. fold c. fold (bucket resource_db l c).
  split; [|split].
  - unfold bucket at 1. unfold categories_of at 1.
    rewrite ResourceFacts.dict_get_set_eq. simpl. unfold names_of at 1.
    rewrite ResourceFacts.dict_get_set_eq. reflexivity.
  - intros l' c' Hne. unfold bucket at 1. unfold categories_of at 1.
    destruct (decide (l' = l)) as [->|Hll].
    + rewrite ResourceFacts.dict_get_set_eq. simpl. unfold names_of at 1.
      rewrite ResourceMore.dict_get_set_ne by (intros ->; destruct Hne; congruence).
      reflexivity.
    + rewrite ResourceMore.dict_get_set_ne by congruence. reflexivity.
  - rewrite ResourceMore.dict_keys_set_eq.
    destruct (dict_contains resource_db l); [rewrite app_nil_r|]; reflexivity.
Qed.

Lemma add_resource_frame_witness :
  let l := PyStr.lower (PyStr.strip "Cupertino") in
  let c := PyStr.lower (PyStr.strip " Legal") in
  exists resource_db' printed,
    add_resource clinic_catalog "Cupertino" " Legal" "Legal Aid Society" false
      = Normal (resource_db', printed) /\
    bucket resource_db' l c = bucket clinic_catalog l c ++ [PyStr.strip "Legal Aid Society"] /\
    (forall l' c', l' <> l \/ c' <> c ->
       bucket resource_db' l' c' = bucket clinic_catalog l' c') /\
    dict_keys resource_db'
      = dict_keys clinic_catalog ++ (if dict_contains clinic_catalog l then [] else [l]).
Proof.
  apply (add_resource_frame clinic_catalog "Cupertino" " Legal" "Legal Aid Society" false).
  - reflexivity.
  - reflexivity.
  - discriminate.
Defined.

(** X4: two calls of [add_resource] whose locations and categories pass the
    checks and differ only by case or surrounding white space, and whose
    names are equal once trimmed, give the same catalog and the same
    output. *)
Theorem add_resource_same_spelling (resource_db : resource_db_t)
  (loc cat name loc' cat' name' : string) (verbose : bool) :
  PyStr.isalpha (PyStr.replace " " EmptyString loc) = true ->
  PyStr.isalpha (PyStr.replace " " EmptyString cat) = true ->
  PyStr.isalpha (PyStr.replace " " EmptyString loc') = true ->
  PyStr.isalpha (PyStr.replace " " EmptyString cat') = true ->
  same_up_to_case_and_padding loc loc' ->
  same_up_to_case_and_padding cat cat' ->
  PyStr.strip name = PyStr.strip name' ->
  PyStr.strip name <> EmptyString ->
  add_resource resource_db loc cat name verbose
    = add_resource resource_db loc' cat' name' verbose.
Proof.
  intros Hl Hc Hl' Hc' Hloc%ResourceFacts.same_normal_form
    Hcat%ResourceFacts.same_normal_form Hname Hn.
  rewrite (ResourceFacts.add_resource_valid _ _ _ _ _ Hl Hc Hn).
  rewrite Hname in Hn.
  rewrite (ResourceFacts.add_resource_valid _ _ _ _ _ Hl' Hc' Hn).
  simpl. rewrite Hloc, Hcat, Hname. reflexivity.
Qed.

Lemma add_resource_same_spelling_witness :
  add_resource clinic_catalog "San Jose" "Health" "Clinic Y " true
    = add_resource clinic_catalog " SAN JOSE" "health  " " Clinic Y" true.
Proof.
  apply (add_resource_same_spelling clinic_catalog "San Jose" "Health" "Clinic Y "
           " SAN JOSE" "health  " " Clinic Y" true); try reflexivity.
  - exists "San Jose", "SAN JOSE". split; [|split].
    + exists EmptyString, EmptyString. repeat split.
    + exists " ", EmptyString. repeat split.
    + reflexivity.
  - exists "Health", "health". split; [|split].
    + exists EmptyString, EmptyString. repeat split.
    + exists EmptyString, "  ". repeat split.
    + reflexivity.
  - discriminate.
Defined.

(** X5: in every catalog built from the empty one by calls of
    [add_resource], no location occurs twice, no category occurs twice
    within a location, and every key is in normal form: equal to its own
    [strip().lower()]. *)
Theorem reachable_keys_normal_unique (resource_db : resource_db_t) :
  catalog_reachable resource_db -> keys_normal_unique resource_db.
Proof.
  induction 1 as [|db db' location category name verbose printed _ IH Hadd].
  - split; [constructor | intros l cats []].
  - eapply ResourceMore.add_resource_keys_normal_unique; eassumption.
Qed.

Lemma reachable_keys_normal_unique_witness : keys_normal_unique clinic_catalog.
Proof.
  apply (reachable_keys_normal_unique clinic_catalog).
  apply (reach_add [] clinic_catalog "San Jose" "Health" "Clinic X" false []).
  - apply reach_empty.
  - reflexivity.
Defined.

(** X6: in every catalog built from the empty one by calls of
    [add_resource], every location has at least one category, every
    category has at least one name, and every stored name is trimmed and
    not empty. *)
Theorem reachable_buckets_filled (resource_db : resource_db_t) :
  catalog_reachable resource_db -> buckets_filled resource_db.
Proof.
  induction 1 as [|db db' location category name verbose printed _ IH Hadd].
  - intros l cats [].
  - eapply ResourceMore.add_resource_buckets_filled; eassumption.
Qed.

Lemma reachable_buckets_filled_witness : buckets_filled clinic_catalog.
Proof.
  apply (reachable_buckets_filled clinic_catalog).
  apply (reach_add [] clinic_catalog "San Jose" "Health" " Clinic X" false []).
  - apply reach_empty.
  - reflexivity.
Defined.

(** ** Sorting and searching *)

(** X7: the result of [_selection_sort] depends only on the items and not
    on their order: two arrangements of the same items sort to the same
    list, and any arrangement of an ascending list sorts back to it. *)
Theorem selection_sort_order_independent (data1 data2 : list string) :
  Permutation data1 data2 ->
  _selection_sort data1 = _selection_sort data2 /\
  (StronglySorted String.le data2 -> _selection_sort data1 = data2).
Proof.
  intros Hperm. split.
  - apply (StronglySorted_unique String.le).
    + apply SelectionSort.selection_sort_sorted.
    + apply SelectionSort.selection_sort_sorted.
    + rewrite !SelectionSort.selection_sort_perm. exact Hperm.
  - intros Hs. apply (StronglySorted_unique String.le).
    + apply SelectionSort.selection_sort_sorted.
    + exact Hs.
    + rewrite SelectionSort.selection_sort_perm. exact Hperm.
Qed.

Lemma selection_sort_order_independent_witness :
  _selection_sort ["kiwi"; "apple"; "pear"] = _selection_sort ["apple"; "kiwi"; "pear"] /\
  (StronglySorted String.le ["apple"; "kiwi"; "pear"] ->
   _selection_sort ["kiwi"; "apple"; "pear"] = ["apple"; "kiwi"; "pear"]).
Proof.
  apply (selection_sort_order_independent ["kiwi"; "apple"; "pear"]
           ["apple"; "kiwi"; "pear"]).
  apply perm_swap.
Defined.

(** X8: on any list, sorted or not, and for any interval, an index returned
    by [_binary_search] other than [-1] lies in the interval and holds the
    target: the search can miss the target in an unsorted list, but it
    never reports a position where the target is not. *)
Theorem binary_search_never_invents (fuel : nat) (sorted_list : list string)
  (target : string) (left right r : Z) :
  _binary_search fuel sorted_list target left right = Normal r ->
  r = (-1)%Z \/
  ((left <= r <= right)%Z /\ py_getitem sorted_list r = Normal target).
Proof.
  revert left right. induction fuel as [|fuel IH]; intros left right; simpl;
    [discriminate|].
  destruct (Z.leb_spec left right) as [Hle|Hgt]; [|intros [= <-]; auto].
  set (mid := ((left + right) / 2)%Z).
  assert (left <= mid <= right)%Z as Hmid.
  { subst mid. split.
    - apply Z.div_le_lower_bound; lia.
    - apply Z.div_le_upper_bound; lia. }
  destruct (py_getitem sorted_list mid) as [x| |] eqn:Hx; simpl; try discriminate.
  destruct (PyStr.eq x target) eqn:Eeq.
  - apply PyStrFacts.eq_true_iff in Eeq. subst x. intros [= <-]. right. auto.
  - destruct (PyStr.lt x target); intros H; destruct (IH _ _ H) as [->|[Hr Hg]];
      auto; right; split; auto; lia.
Qed.

Lemma binary_search_never_invents_witness :
  2%Z = (-1)%Z \/
  ((0 <= 2 <= 2)%Z /\ py_getitem ["pear"; "apple"; "kiwi"] 2 = Normal "kiwi").
Proof.
  apply (binary_search_never_invents 3 ["pear"; "apple"; "kiwi"] "kiwi" 0 2 2).
  reflexivity.
Defined.

(** X9: on an ascending list that may hold the same string several times,
    the search over the whole list returns the index of an occurrence of
    the target when there is one, and [-1] when there is none. *)
Theorem binary_search_sorted_duplicates (sorted_list : list string) (target : string)
  (fuel : nat) :
  Sorted String.le sorted_list ->
  (length sorted_list < fuel)%nat ->
  exists r,
    _binary_search fuel sorted_list target 0 (Z.of_nat (length sorted_list) - 1)
      = Normal r /\
    (In target sorted_list ->
       (0 <= r)%Z /\ sorted_list !! Z.to_nat r = Some target) /\
    (~ In target sorted_list -> r = (-1)%Z).
Proof.
  intros Hs Hf.
  apply Sorted_StronglySorted in Hs; [|intros x y z Hxy Hyz; etrans; eassumption].
  destruct (BinarySearch.binary_search_whole sorted_list target fuel Hs Hf)
    as (r & Hr & [[-> Hnot] | [Hpos Hfound]]).
  - exists (-1)%Z. split; [exact Hr|]. split; [contradiction | reflexivity].
  - exists r. split; [exact Hr|]. split; [auto|].
    intros Hnot. exfalso. apply Hnot.
    apply list_elem_of_In, list_elem_of_lookup. eauto.
Qed.

Lemma binary_search_sorted_duplicates_witness :
  exists r,
    _binary_search 5 ["apple"; "kiwi"; "kiwi"; "pear"] "kiwi" 0
      (Z.of_nat (length ["apple"; "kiwi"; "kiwi"; "pear"]) - 1) = Normal r /\
    (In "kiwi" ["apple"; "kiwi"; "kiwi"; "pear"] ->
       (0 <= r)%Z /\ ["apple"; "kiwi"; "kiwi"; "pear"] !! Z.to_nat r = Some "kiwi") /\
    (~ In "kiwi" ["apple"; "kiwi"; "kiwi"; "pear"] -> r = (-1)%Z).
Proof.
  apply (binary_search_sorted_duplicates ["apple"; "kiwi"; "kiwi"; "pear"] "kiwi" 5).
  - repeat constructor.
  - simpl. lia.
Defined.

(** ** The registry *)

Module MentorMore.
Import PyStr PyStrFacts PyStrMore.

Section FirstWhere.
Context {A : Type} (p : A -> bool).

Lemma first_where_sound (l : list A) (i : nat) (x : A) :
  first_where p l = Some (i, x) ->
  l !! i = Some x /\ p x = true /\
  forall j y, (j < i)%nat -> l !! j = Some y -> p y = false.
Proof.
  revert i x. induction l as [|a rest IH]; intros i x; simpl; [discriminate|].
  destruct (p a) eqn:E.
  - intros [= <- <-]. repeat split; auto. intros j y Hj. lia.
  - destruct (first_where p rest) as [[i' x']|]; [|discriminate].
    intros [= <- <-]. destruct (IH i' x' eq_refl) as (Hl & Hp & Hbefore).
    repeat split; auto. intros [|j] y Hj Hy; simplify_eq/=; [exact E|].
    apply (Hbefore j); [lia | assumption].
Qed.

Lemma first_where_complete (l : list A) (i : nat) (x : A) :
  l !! i = Some x -> p x = true ->
  (forall j y, (j < i)%nat -> l !! j = Some y -> p y = false) ->
  first_where p l = Some (i, x).
Proof.
  revert i. induction l as [|a rest IH]; intros [|i] Hi Hp Hbefore; simplify_eq/=.
  - rewrite Hp. reflexivity.
  - rewrite (Hbefore 0%nat a) by (simpl; auto with lia).
    rewrite (IH i Hi Hp); [reflexivity|].
    intros j y Hj Hy. apply (Hbefore (S j)); [lia | exact Hy].
Qed.

Lemma first_where_none (l : list A) :
  first_where p l = None <-> forall x, In x l -> p x = false.
Proof.
  induction l as [|a rest IH]; simpl; [tauto|].
  destruct (p a) eqn:E.
  - split; [discriminate|]. intros H. rewrite (H a) in E by auto. discriminate.
  - destruct (first_where p rest) as [[i x]|].
    + split; [discriminate|]. intros H. exfalso.
      assert (Some (i, x) = None) as Habs; [|discriminate Habs].
      apply IH. intros x' Hx'. apply H. auto.
    + split; [|reflexivity]. intros _ x' [<-|Hx']; [exact E|].
      apply IH; [reflexivity | exact Hx'].
Qed.

End FirstWhere.

Lemma first_with_email_alt (mentor_email : string) (mentors : mentors_t) :
  first_with_email mentor_email mentors
    = first_where (fun m => eq (lower (vol_email m)) (lower mentor_email)) mentors.
Proof.
  induction mentors as [|m rest IH]; simpl; [reflexivity|]. rewrite IH. reflexivity.
Qed.

Lemma mentor_by_typed_email_alt (email : string) (mentors : mentors_t) :
  mentor_by_typed_email email mentors
    = first_where (fun m => eq (lower (vol_email m)) email) mentors.
Proof.
  induction mentors as [|m rest IH]; simpl; [reflexivity|]. rewrite IH. reflexivity.
Qed.

Lemma first_match_alt (immigrant : Immigrant) (expertise : string) (mentors : mentors_t) :
  first_match immigrant expertise mentors
    = first_where (mentor_matches immigrant expertise) mentors.
Proof.
  induction mentors as [|m rest IH]; simpl; [reflexivity|]. rewrite IH. reflexivity.
Qed.

Lemma with_availability_identity (m : Volunteer) (status : bool) :
  identity_of (with_availability m status) = identity_of m.
Proof. reflexivity. Qed.

Lemma available_count_app (l1 l2 : mentors_t) :
  available_count (l1 ++ l2) = (available_count l1 + available_count l2)%nat.
Proof. unfold available_count. rewrite filter_app, length_app. reflexivity. Qed.

(** Switching off a mentor that was available takes one from the count. *)
Lemma available_count_switch_off (mentors : mentors_t) (i : nat) (m : Volunteer) :
  mentors !! i = Some m -> vol_availability m = true ->
  available_count mentors
    = S (available_count (<[i := with_availability m false]> mentors)).
Proof.
  intros Hi Ha.
  rewrite <- (take_drop_middle mentors i m Hi) at 1.
  rewrite insert_take_drop by (eapply lookup_lt_Some, Hi).
  unfold available_count. rewrite !filter_app, !length_app.
  rewrite filter_cons_True by exact Ha.
  rewrite filter_cons_False by (simpl; discriminate).
  simpl. lia.
Qed.

End MentorMore.

Lemma remove_mentor_at (mentors : mentors_t) (mentor_email : string) (i : nat)
  (m : Volunteer) :
  mentors !! i = Some m ->
  PyStr.lower (vol_email m) = PyStr.lower mentor_email ->
  (forall j mj, (j < i)%nat -> mentors !! j = Some mj ->
     PyStr.lower (vol_email mj) <> PyStr.lower mentor_email) ->
  remove_mentor mentors mentor_email
    = (true, take i mentors ++ drop (S i) mentors, [MentorRemoved m]).
Proof.
  intros Hi Hm Hbefore. unfold remove_mentor.
  rewrite MentorMore.first_with_email_alt.
  rewrite (MentorMore.first_where_complete _ mentors i m Hi).
  - rewrite delete_take_drop. reflexivity.
  - apply PyStrFacts.eq_true_iff, Hm.
  - intros j mj Hj Hmj. apply PyStrFacts.eq_false_iff. eauto.
Qed.

(** X10: [remove_mentor] with an address that no mentor has, compared
    without regard to case, returns [False], leaves the registry as it was
    and prints that no mentor was found. *)
Theorem remove_mentor_absent (mentors : mentors_t) (mentor_email : string) :
  ~ email_present mentors mentor_email ->
  remove_mentor mentors mentor_email
    = (false, mentors, [Said ("No mentor found with email: " +:+ mentor_email)]).
Proof.
  intros Habsent. unfold remove_mentor.
  rewrite MentorMore.first_with_email_alt.
  assert (first_where
            (fun m => PyStr.eq (PyStr.lower (vol_email m)) (PyStr.lower mentor_email))
            mentors = None) as ->; [|reflexivity].
  apply MentorMore.first_where_none. intros m Hm.
  apply PyStrFacts.eq_false_iff. intros Heq. apply Habsent. exists m. auto.
Qed.

Lemma remove_mentor_absent_witness :
  remove_mentor [alice; charlie] "dana.lee@example.com"
    = (false, [alice; charlie],
       [Said ("No mentor found with email: " +:+ "dana.lee@example.com")]).
Proof.
  apply (remove_mentor_absent [alice; charlie] "dana.lee@example.com").
  intros (m & [<-|[<-|[]]] & Hm); vm_compute in Hm; discriminate Hm.
Defined.

(** X11: [remove_mentor] takes out the first mentor, in insertion order,
    whose address equals the given one without regard to case, and only
    that one; the mentors before and after it keep their order, and the
    call returns [True]. *)
Theorem remove_mentor_first (mentors : mentors_t) (mentor_email : string) (i : nat)
  (m : Volunteer) :
  mentors !! i = Some m ->
  PyStr.lower (vol_email m) = PyStr.lower mentor_email ->
  (forall j mj, (j < i)%nat -> mentors !! j = Some mj ->
     PyStr.lower (vol_email mj) <> PyStr.lower mentor_email) ->
  remove_mentor mentors mentor_email
    = (true, take i mentors ++ drop (S i) mentors, [MentorRemoved m]) /\
  S (length (take i mentors ++ drop (S i) mentors)) = length mentors.
Proof.
  intros Hi Hm Hbefore. split; [apply remove_mentor_at; assumption|].
  rewrite <- delete_take_drop, length_delete by eauto.
  apply lookup_lt_Some in Hi. lia.
Qed.

Lemma remove_mentor_first_witness :
  remove_mentor [charlie; alice; alice_again] "Alice.Smith@Example.com"
    = (true, take 1 [charlie; alice; alice_again] ++ drop 2 [charlie; alice; alice_again],
       [MentorRemoved alice]) /\
  S (length (take 1 [charlie; alice; alice_again] ++ drop 2 [charlie; alice; alice_again]))
    = length [charlie; alice; alice_again].
Proof.
  apply (remove_mentor_first [charlie; alice; alice_again] "Alice.Smith@Example.com"
           1 alice).
  - reflexivity.
  - reflexivity.
  - intros j mj Hj Hmj. destruct j as [|j]; [|lia]. simpl in Hmj.
    injection Hmj as <-. vm_compute. discriminate.
Defined.

(** X12: adding a mentor whose address is not yet in the registry and then
    removing by that address, in any case, gives back the registry as it
    was. *)
Theorem add_then_remove_mentor (mentors : mentors_t) (v : Volunteer) (verbose : bool)
  (mentor_email : string) :
  ~ email_present mentors (vol_email v) ->
  PyStr.lower mentor_email = PyStr.lower (vol_email v) ->
  remove_mentor (fst (add_mentor mentors (VolunteerObj v) verbose)) mentor_email
    = (true, mentors, [MentorRemoved v]).
Proof.
  intros Hfresh He. simpl.
  rewrite (remove_mentor_at (mentors ++ [v]) mentor_email (length mentors) v).
  - rewrite take_app_length, drop_ge by (rewrite length_app; simpl; lia).
    rewrite app_nil_r. reflexivity.
  - apply list_lookup_middle. reflexivity.
  - symmetry. exact He.
  - intros j mj Hj Hmj Heq. apply Hfresh. exists mj. split.
    + rewrite lookup_app_l in Hmj by exact Hj.
      apply list_elem_of_In, list_elem_of_lookup. eauto.
    + congruence.
Qed.

Lemma add_then_remove_mentor_witness :
  remove_mentor (fst (add_mentor [charlie] (VolunteerObj alice) false))
      "ALICE.SMITH@example.com"
    = (true, [charlie], [MentorRemoved alice]).
Proof.
  apply (add_then_remove_mentor [charlie] alice false "ALICE.SMITH@example.com").
  - intros (m & [<-|[]] & Hm). vm_compute in Hm. discriminate Hm.
  - reflexivity.
Defined.

(** X13: when two entries of the registry have the given address, compared
    without regard to case, one call of [remove_mentor] takes out one entry
    only: the call returns [True], the registry is one shorter, and the
    address is still present. *)
Theorem remove_mentor_leaves_duplicate (mentors : mentors_t) (mentor_email : string)
  (i j : nat) (mi mj : Volunteer) :
  mentors !! i = Some mi -> mentors !! j = Some mj -> i <> j ->
  PyStr.lower (vol_email mi) = PyStr.lower mentor_email ->
  PyStr.lower (vol_email mj) = PyStr.lower mentor_email ->
  fst (fst (remove_mentor mentors mentor_email)) = true /\
  S (length (snd (fst (remove_mentor mentors mentor_email)))) = length mentors /\
  email_present (snd (fst (remove_mentor mentors mentor_email))) mentor_email.
Proof.
  intros Hi Hj Hne Hmi Hmj. unfold remove_mentor.
  rewrite MentorMore.first_with_email_alt.
  destruct (first_where
              (fun m => PyStr.eq (PyStr.lower (vol_email m)) (PyStr.lower mentor_email))
              mentors) as [[k mk]|] eqn:E.
  - apply MentorMore.first_where_sound in E as (Hk & _ & _). simpl.
    split; [reflexivity|]. split.
    + rewrite length_delete by eauto. apply lookup_lt_Some in Hk. lia.
    + assert (exists t mt, t <> k /\ mentors !! t = Some mt /\
                PyStr.lower (vol_email mt) = PyStr.lower mentor_email)
        as (t & mt & Htk & Ht & Hmt).
      { destruct (decide (i = k)) as [->|Hik]; [exists j, mj | exists i, mi]; auto. }
      exists mt. split; [|exact Hmt].
      apply list_elem_of_In, list_elem_of_lookup.
      destruct (decide (t < k)%nat) as [Hlt|Hge].
      * exists t. rewrite list_lookup_delete_lt by exact Hlt. exact Ht.
      * exists (pred t). rewrite list_lookup_delete_ge by lia.
        replace (S (pred t)) with t by lia. exact Ht.
  - exfalso. rewrite MentorMore.first_where_none in E.
    specialize (E mi). rewrite PyStrFacts.eq_false_iff in E. apply E; [|exact Hmi].
    apply list_elem_of_In, list_elem_of_lookup. eauto.
Qed.

Lemma remove_mentor_leaves_duplicate_witness :
  fst (fst (remove_mentor [alice; alice_again] "alice.smith@example.com")) = true /\
  S (length (snd (fst (remove_mentor [alice; alice_again] "alice.smith@example.com"))))
    = length [alice; alice_again] /\
  email_present (snd (fst (remove_mentor [alice; alice_again] "alice.smith@example.com")))
    "alice.smith@example.com".
Proof.
  apply (remove_mentor_leaves_duplicate [alice; alice_again] "alice.smith@example.com"
           0 1 alice alice_again).
  - reflexivity.
  - reflexivity.
  - discriminate.
  - reflexivity.
  - reflexivity.
Defined.

Lemma mentor_matches_expertise_case (immigrant : Immigrant) (e e' : string)
  (mentors : mentors_t) :
  PyStr.lower e = PyStr.lower e' ->
  first_match immigrant e mentors = first_match immigrant e' mentors.
Proof.
  intros He. induction mentors as [|m rest IH]; simpl; [reflexivity|].
  unfold mentor_matches. rewrite He, IH. reflexivity.
Qed.

(** X14: [find_mentor] reads the requested expertise without regard to case:
    two requests whose expertise differ only by case have the same result,
    the same effect on the registry and on the immigrant, and the same
    output. *)
Theorem find_mentor_expertise_case (mentors : mentors_t) (immigrant : Immigrant)
  (expertise expertise' now : string) :
  PyStr.lower expertise = PyStr.lower expertise' ->
  find_mentor mentors immigrant expertise now
    = find_mentor mentors immigrant expertise' now.
Proof.
  intros He. unfold find_mentor.
  rewrite (mentor_matches_expertise_case immigrant expertise expertise' mentors He).
  reflexivity.
Qed.

Lemma find_mentor_expertise_case_witness :
  find_mentor [charlie; alice] maria "LANGUAGE" "2024-05-01 10:00:00"
    = find_mentor [charlie; alice] maria "language" "2024-05-01 10:00:00".
Proof.
  apply (find_mentor_expertise_case [charlie; alice] maria "LANGUAGE" "language"
           "2024-05-01 10:00:00").
  reflexivity.
Defined.

(** X15: a call of [find_mentor] changes nothing but one availability flag
    and the log: the registry keeps its mentors, in order, with their
    names, addresses, expertise and languages; the number of available
    mentors goes down by one on a match and stays on a miss; the immigrant
    keeps every attribute except the log, which gets one entry at its end on
    a match and none on a miss. *)
Theorem find_mentor_changes_one_flag (mentors : mentors_t) (immigrant : Immigrant)
  (expertise now : string) :
  let res := find_mentor mentors immigrant expertise now in
  let matched := match found res with Some _ => 1%nat | None => 0%nat end in
  map identity_of (mentors_after res) = map identity_of mentors /\
  available_count mentors = (available_count (mentors_after res) + matched)%nat /\
  (exists entries,
     imm_progress_log (immigrant_after res) = imm_progress_log immigrant ++ entries /\
     length entries = matched) /\
  (imm_name (immigrant_after res), imm_email (immigrant_after res),
   imm_native_language (immigrant_after res), imm_desired_language (immigrant_after res),
   imm_location (immigrant_after res), imm_goals (immigrant_after res))
  = (imm_name immigrant, imm_email immigrant, imm_native_language immigrant,
     imm_desired_language immigrant, imm_location immigrant, imm_goals immigrant).
Proof.
  unfold find_mentor, update_progress.
  destruct (first_match immigrant expertise mentors) as [[i m]|] eqn:E; simpl.
  - apply MentorFacts.first_match_sound in E as (Hi & Hm & _).
    apply MentorFacts.mentor_matches_iff in Hm as (_ & Ha & _).
    split; [|split; [|split]].
    + rewrite list_fmap_insert. apply list_insert_id.
      rewrite list_lookup_fmap, Hi. reflexivity.
    + rewrite (MentorMore.available_count_switch_off mentors i m Hi Ha). lia.
    + eexists. split; reflexivity.
    + reflexivity.
  - split; [reflexivity|]. split; [lia|]. split; [|reflexivity].
    exists []. rewrite app_nil_r. split; reflexivity.
Qed.

(** X16: a mentor returned by [find_mentor] is not returned by the next call
    on the resulting registry, whoever asks and whatever the expertise. *)
Theorem find_mentor_not_twice (mentors : mentors_t) (immigrant immigrant' : Immigrant)
  (expertise now expertise' now' : string) (i : nat) (w : Volunteer) :
  found (find_mentor mentors immigrant expertise now) = Some (i, w) ->
  fst <$> found (find_mentor (mentors_after (find_mentor mentors immigrant expertise now))
                   immigrant' expertise' now') <> Some i.
Proof.
  intros Hfound.
  destruct (MentorFacts.find_mentor_skips_unavailable
              (mentors_after (find_mentor mentors immigrant expertise now))
              immigrant' expertise' now' i w) as [Hnot _].
  - revert Hfound. unfold find_mentor, update_progress.
    destruct (first_match immigrant expertise mentors) as [[k m]|] eqn:E; simpl;
      [|discriminate].
    intros [= <- <-]. apply MentorFacts.first_match_sound in E as (Hk & _).
    apply list_lookup_insert_eq. eapply lookup_lt_Some, Hk.
  - revert Hfound. unfold find_mentor, update_progress.
    destruct (first_match immigrant expertise mentors) as [[k m]|]; simpl;
      [|discriminate].
    intros [= <- <-]. reflexivity.
  - destruct (found (find_mentor _ immigrant' expertise' now')) as [[k w']|]; simpl;
      [|discriminate].
    intros [= ->]. apply (Hnot w'). reflexivity.
Qed.

Lemma find_mentor_not_twice_witness :
  fst <$> found (find_mentor
                   (mentors_after (find_mentor [charlie; alice] maria "language"
                                     "2024-05-01 10:00:00"))
                   maria "Language" "2024-05-01 10:01:00") <> Some 1%nat.
Proof.
  apply (find_mentor_not_twice [charlie; alice] maria maria "language"
           "2024-05-01 10:00:00" "Language" "2024-05-01 10:01:00" 1
           (with_availability alice false)).
  reflexivity.
Defined.

(** X17: a mentor built by [Volunteer.__init__] matches a request exactly
    when the expertise agrees up to case, the mentor is available, and one
    of the languages given to the constructor, once trimmed and
    lower-cased, equals the lower-cased language that the immigrant wants:
    case and surrounding white space in the registered languages do not
    count. *)
Theorem constructed_mentor_matches (name email expertise : string)
  (available_languages : list string) (availability : bool)
  (immigrant : Immigrant) (wanted : string) :
  mentor_matches immigrant wanted
    (Volunteer_init name email expertise available_languages availability) = true
  <->
  PyStr.lower expertise = PyStr.lower wanted /\
  availability = true /\
  exists lang, In lang available_languages /\
    PyStr.lower (PyStr.strip lang) = PyStr.lower (imm_desired_language immigrant).
Proof.
  rewrite MentorFacts.mentor_matches_iff. unfold satisfies_conditions. simpl.
  split.
  - intros (He & Ha & lang & [raw [<- Hraw]]%in_map_iff & Hl).
    rewrite PyStrMore.lower_idemp in Hl. eauto 6.
  - intros (He & Ha & raw & Hraw & Hl). split; [exact He|]. split; [exact Ha|].
    exists (PyStr.lower (PyStr.strip raw)). split.
    + apply in_map_iff. eauto.
    + rewrite PyStrMore.lower_idemp. exact Hl.
Qed.

Lemma typed_email_found_iff (email : string) (mentors : mentors_t) :
  mentor_by_typed_email email mentors = None <->
  forall m, In m mentors -> PyStr.lower (vol_email m) <> email.
Proof.
  rewrite MentorMore.mentor_by_typed_email_alt, MentorMore.first_where_none.
  split; intros H m Hm; specialize (H m Hm); apply PyStrFacts.eq_false_iff; exact H.
Qed.

Lemma register_volunteer_new (mentors : mentors_t) (email name expertise : string)
  (language_list : list string) (availability : bool) :
  mentor_by_typed_email email mentors = None ->
  register_volunteer mentors email name expertise language_list availability
    = (mentors ++ [Volunteer_init name email expertise language_list availability],
       [MentorsSaved "mentors.json"
          (mentors_snapshot
             (mentors ++ [Volunteer_init name email expertise language_list availability]));
        RegistrationThanks name]).
Proof. intros H. unfold register_volunteer. rewrite H. reflexivity. Qed.

(** X18: the volunteer menu compares the lower-cased stored address with
    the typed address as it is. So an address typed with an upper-case
    letter is never found in the registry, and a registration under it is
    always accepted and appended, even when the same address is already
    registered. *)
Theorem register_uppercase_address (mentors : mentors_t) (email name expertise : string)
  (language_list : list string) (availability : bool) :
  PyStr.lower email <> email ->
  mentor_by_typed_email email mentors = None /\
  fst (register_volunteer mentors email name expertise language_list availability)
    = mentors ++ [Volunteer_init name email expertise language_list availability].
Proof.
  intros Hup.
  assert (mentor_by_typed_email email mentors = None) as Hnone.
  { apply typed_email_found_iff. intros m _ Heq. apply Hup.
    rewrite <- Heq. apply PyStrMore.lower_idemp. }
  split; [exact Hnone|]. rewrite register_volunteer_new by exact Hnone. reflexivity.
Qed.

Lemma register_uppercase_address_witness :
  mentor_by_typed_email "Bob@Example.com"
    [Volunteer_init "Bob" "Bob@Example.com" "career" ["english"] true] = None /\
  fst (register_volunteer [Volunteer_init "Bob" "Bob@Example.com" "career" ["english"] true]
         "Bob@Example.com" "Bob" "career" ["english"] true)
    = [Volunteer_init "Bob" "Bob@Example.com" "career" ["english"] true]
      ++ [Volunteer_init "Bob" "Bob@Example.com" "career" ["english"] true].
Proof.
  apply (register_uppercase_address
           [Volunteer_init "Bob" "Bob@Example.com" "career" ["english"] true]
           "Bob@Example.com" "Bob" "career" ["english"] true).
  vm_compute. discriminate.
Defined.

(** X19: for an address typed in lower case, the registration of the
    volunteer menu is refused, with the registry unchanged, when the address
    is present in the registry without regard to case, and otherwise
    appends the new mentor. *)
Theorem register_lowercase_address (mentors : mentors_t) (email name expertise : string)
  (language_list : list string) (availability : bool) :
  PyStr.lower email = email ->
  (email_present mentors email ->
   register_volunteer mentors email name expertise language_list availability
     = (mentors, [AlreadyRegistered])) /\
  (~ email_present mentors email ->
   fst (register_volunteer mentors email name expertise language_list availability)
     = mentors ++ [Volunteer_init name email expertise language_list availability]).
Proof.
  intros Hlow. split.
  - intros (m & Hm & Heq). unfold register_volunteer.
    destruct (mentor_by_typed_email email mentors) as [[i x]|] eqn:E; [reflexivity|].
    exfalso. rewrite typed_email_found_iff in E. apply (E m Hm). congruence.
  - intros Habsent. rewrite register_volunteer_new; [reflexivity|].
    apply typed_email_found_iff. intros m Hm Heq. apply Habsent.
    exists m. split; [exact Hm | congruence].
Qed.

Lemma register_lowercase_address_witness :
  (email_present [alice] "alice.smith@example.com" ->
   register_volunteer [alice] "alice.smith@example.com" "Alice" "language" ["english"] true
     = ([alice], [AlreadyRegistered])) /\
  (~ email_present [alice] "alice.smith@example.com" ->
   fst (register_volunteer [alice] "alice.smith@example.com" "Alice" "language"
          ["english"] true)
     = [alice] ++ [Volunteer_init "Alice" "alice.smith@example.com" "language"
                     ["english"] true]).
Proof.
  apply (register_lowercase_address [alice] "alice.smith@example.com" "Alice" "language"
           ["english"] true).
  reflexivity.
Defined.

(** X20: as long as addresses are typed in lower case, registrations keep
    the contacts of the registry pairwise distinct without regard to
    case. *)
Theorem register_keeps_contacts_distinct (mentors : mentors_t)
  (email name expertise : string) (language_list : list string) (availability : bool) :
  PyStr.lower email = email ->
  NoDup (map contact_key mentors) ->
  NoDup (map contact_key
           (fst (register_volunteer mentors email name expertise language_list
                   availability))).
Proof.
  intros Hlow Hnd. unfold register_volunteer.
  destruct (mentor_by_typed_email email mentors) as [[i x]|] eqn:E; [exact Hnd|].
  simpl. rewrite map_app. simpl. apply NoDup_app. split; [exact Hnd|]. split.
  - intros k Hk [Hnew|[]]%list_elem_of_In.
    apply list_elem_of_In, in_map_iff in Hk as (m & Hkey & Hm).
    rewrite typed_email_found_iff in E. apply (E m Hm).
    unfold contact_key in Hkey, Hnew. simpl in Hnew. congruence.
  - apply NoDup_singleton.
Qed.

Lemma register_keeps_contacts_distinct_witness :
  NoDup (map contact_key
           (fst (register_volunteer [alice; charlie] "dana.lee@example.com" "Dana Lee"
                   "health" ["korean"] true))).
Proof.
  apply (register_keeps_contacts_distinct [alice; charlie] "dana.lee@example.com"
           "Dana Lee" "health" ["korean"] true).
  - reflexivity.
  - apply (bool_decide_unpack _). vm_compute. reflexivity.
Defined.

(** ** Saving and reloading the registry *)

Lemma volunteer_mapping_label (k : string) :
  In k EXPERTISE_AREAS ->
  exists label,
    PyStr.lower label = k /\
    volunteer_mapping k
      = Some (fun name email languages availability =>
                Volunteer_init name email label languages availability).
Proof.
  intros [<-|[<-|[<-|[<-|[<-|[]]]]]].
  - exists "Language". split; reflexivity.
  - exists "Cultural Integration". split; reflexivity.
  - exists "Career". split; reflexivity.
  - exists "Health". split; reflexivity.
  - exists "Legal". split; reflexivity.
Qed.

Lemma volunteer_mapping_unknown (k : string) :
  ~ In k EXPERTISE_AREAS -> volunteer_mapping k = None.
Proof.
  intros Hk. unfold volunteer_mapping.
  repeat match goal with
         | |- context [PyStr.eq k ?lit] =>
             let E := fresh "E" in
             destruct (PyStr.eq k lit) eqn:E;
             [apply PyStrFacts.eq_true_iff in E; exfalso; apply Hk; rewrite E;
              simpl; tauto|]
         end.
  reflexivity.
Qed.




(** X22: [create_volunteer_from_dict] returns a mentor exactly when the keys
    [name], [email], [expertise] and [available_languages] are present and
    the lower-cased expertise is in [EXPERTISE_AREAS]; in every other case it
    returns [None]. A missing [availability] is no obstacle. *)
Theorem create_volunteer_from_dict_some (data : volunteer_dict) :
  is_Some (create_volunteer_from_dict data) <->
  exists name email expertise languages,
    vd_name data = Some name /\ vd_email data = Some email /\
    vd_expertise data = Some expertise /\
    vd_available_languages data = Some languages /\
    In (PyStr.lower expertise) EXPERTISE_AREAS.
Proof.
  unfold create_volunteer_from_dict. split.
  - intros [v Hv]. destruct (vd_expertise data) as [x|]; [|discriminate].
    destruct (decide (In (PyStr.lower x) EXPERTISE_AREAS)) as [Hk|Hk];
      [|rewrite (volunteer_mapping_unknown _ Hk) in Hv; discriminate].
    destruct (volunteer_mapping (PyStr.lower x)); [|discriminate].
    destruct (vd_name data) as [n|]; [|discriminate].
    destruct (vd_email data) as [em|]; [|discriminate].
    destruct (vd_available_languages data) as [langs|]; [|discriminate].
    eauto 10.
  - intros (n & em & x & langs & -> & -> & -> & -> & Hk).
    destruct (volunteer_mapping_label _ Hk) as (label & _ & ->). eauto.
Qed.

Lemma dict_set_fresh {V : Type} (d : dict V) (k : string) (v : V) :
  ~ In k (dict_keys d) -> dict_set d k v = d ++ [(k, v)].
Proof.
  induction d as [|[k0 v0] d IH]; simpl; [reflexivity|]. intros Hk.
  destruct (PyStr.eq k0 k) eqn:E.
  - apply PyStrFacts.eq_true_iff in E. tauto.
  - rewrite IH by tauto. reflexivity.
Qed.

Lemma mentors_snapshot_distinct (mentors : mentors_t) :
  forall acc : dict volunteer_dict,
    NoDup (dict_keys acc ++ map vol_email mentors) ->
    fold_left
      (fun data mentor => dict_set data (vol_email mentor) (Volunteer_dict mentor))
      mentors acc
    = acc ++ map (fun m => (vol_email m, Volunteer_dict m)) mentors.
Proof.
  induction mentors as [|m rest IH]; intros acc Hnd; simpl.
  - rewrite app_nil_r. reflexivity.
  - simpl in Hnd. apply NoDup_app in Hnd as (Hacc & Hdisj & Hrest).
    rewrite dict_set_fresh.
    + rewrite IH.
      * rewrite <- app_assoc. reflexivity.
      * unfold dict_keys. rewrite map_app. simpl. rewrite <- app_assoc. simpl.
        apply NoDup_app. split; [exact Hacc|]. split; [exact Hdisj | exact Hrest].
    + intros Hin. apply (Hdisj (vol_email m)); [apply list_elem_of_In, Hin|].
      apply list_elem_of_In. left. reflexivity.
Qed.

Lemma load_mentors_canonical (mentors : mentors_t) :
  Forall (fun v => create_volunteer_from_dict (Volunteer_dict v) = Some v) mentors ->
  forall acc : mentors_t,
    fold_left
      (fun mentors item =>
         match create_volunteer_from_dict (snd item) with
         | Some mentor => fst (add_mentor mentors (VolunteerObj mentor) false)
         | None => mentors
         end)
      (map (fun m => (vol_email m, Volunteer_dict m)) mentors) acc
    = acc ++ mentors.
Proof.
  induction 1 as [|m rest Hm Hrest IH]; intros acc; simpl.
  - rewrite app_nil_r. reflexivity.
  - rewrite Hm. simpl. rewrite IH, <- app_assoc. reflexivity.
Qed.

(** X23: the save and reload of a registry that is not empty is a round
    trip when the addresses of the mentors are pairwise different and each
    mentor is read back as it is from its own [__dict__]: what [main_menu]
    builds at its start from the dictionary given to [save_data] is the
    registry, with the mentors in their order. (An empty registry is saved
    as an empty dictionary, for which [main_menu] builds the demo mentors
    instead.) *)
Theorem save_then_load_mentors (mentors : mentors_t) :
  mentors <> [] ->
  NoDup (map vol_email mentors) ->
  Forall (fun v => create_volunteer_from_dict (Volunteer_dict v) = Some v) mentors ->
  load_mentors (mentors_snapshot mentors) = mentors.
Proof.
  intros Hne Hnd Hcanon. unfold mentors_snapshot.
  rewrite mentors_snapshot_distinct by exact Hnd.
  destruct mentors as [|m rest]; [contradiction|].
  change (load_mentors_loop (map (fun m => (vol_email m, Volunteer_dict m)) (m :: rest))
          = m :: rest).
  apply (load_mentors_canonical (m :: rest) Hcanon []).
Qed.

Lemma save_then_load_mentors_witness :
  load_mentors (mentors_snapshot [alice; charlie; dana_off]) = [alice; charlie; dana_off].
Proof.
  apply (save_then_load_mentors [alice; charlie; dana_off]).
  - discriminate.
  - apply (bool_decide_unpack _). vm_compute. reflexivity.
  - repeat constructor.
Defined.

Example empty_registry_reloads_as_demo :
  mentors_snapshot [] = [] /\
  load_mentors (mentors_snapshot []) = fst (prepopulate_volunteers [] false) /\
  length (load_mentors (mentors_snapshot [])) = 11%nat /\
  snd (prepopulate_volunteers [] false) = [].
Proof. repeat split. Qed.

Lemma create_volunteer_email (data : volunteer_dict) (m : Volunteer) :
  create_volunteer_from_dict data = Some m -> vd_email data = Some (vol_email m).
Proof.
  unfold create_volunteer_from_dict.
  destruct (vd_expertise data) as [x|]; [|discriminate].
  destruct (decide (In (PyStr.lower x) EXPERTISE_AREAS)) as [Hk|Hk];
    [|rewrite (volunteer_mapping_unknown _ Hk); discriminate].
  destruct (volunteer_mapping_label _ Hk) as (label & _ & ->).
  destruct (vd_name data) as [n|]; [|discriminate].
  destruct (vd_email data) as [em|]; [|discriminate].
  destruct (vd_available_languages data) as [langs|]; [|discriminate].
  intros [= <-]. reflexivity.
Qed.

Lemma mentors_snapshot_keys (mentors : mentors_t) :
  forall acc : dict volunteer_dict,
    NoDup (dict_keys acc) ->
    (forall k d, In (k, d) acc -> vd_email d = Some k) ->
    let data :=
      fold_left
        (fun data mentor => dict_set data (vol_email mentor) (Volunteer_dict mentor))
        mentors acc in
    NoDup (dict_keys data) /\ (forall k d, In (k, d) data -> vd_email d = Some k).
Proof.
  induction mentors as [|m rest IH]; intros acc Hnd Hkeys; simpl; [auto|].
  apply IH.
  - apply ResourceMore.dict_set_NoDup, Hnd.
  - intros k d [[-> ->]|Hin]%ResourceFacts.dict_set_In; [reflexivity | auto].
Qed.

Lemma load_mentors_emails (items : dict volunteer_dict) :
  (forall k d, In (k, d) items -> vd_email d = Some k) ->
  forall acc : mentors_t,
    exists ks,
      map vol_email
        (fold_left
           (fun mentors item =>
              match create_volunteer_from_dict (snd item) with
              | Some mentor => fst (add_mentor mentors (VolunteerObj mentor) false)
              | None => mentors
              end)
           items acc)
      = map vol_email acc ++ ks /\
      ks `sublist_of` dict_keys items.
Proof.
  set (step := fun (mentors : mentors_t) (item : string * volunteer_dict) =>
                 match create_volunteer_from_dict (snd item) with
                 | Some mentor => fst (add_mentor mentors (VolunteerObj mentor) false)
                 | None => mentors
                 end).
  induction items as [|[k d] rest IH]; intros Hkeys acc; cbn [fold_left].
  - exists []. rewrite app_nil_r. split; [reflexivity | constructor].
  - assert (step acc (k, d)
            = match create_volunteer_from_dict d with
              | Some m => acc ++ [m]
              | None => acc
              end) as -> by reflexivity.
    destruct (create_volunteer_from_dict d) as [m|] eqn:E.
    + destruct (IH (fun k' d' H => Hkeys k' d' (or_intror H)) (acc ++ [m]))
        as (ks & Hmap & Hsub).
      exists (vol_email m :: ks). split.
      * rewrite Hmap, map_app, <- app_assoc. reflexivity.
      * apply create_volunteer_email in E.
        rewrite (Hkeys k d (or_introl eq_refl)) in E. injection E as ->.
        apply sublist_skip, Hsub.
    + destruct (IH (fun k' d' H => Hkeys k' d' (or_intror H)) acc) as (ks & Hmap & Hsub).
      exists ks. split; [exact Hmap | apply sublist_cons, Hsub].
Qed.

(** X24: whatever the registry, what is rebuilt from the dictionary given
    to [save_data] has no two mentors with the same address: mentors that
    share an address, spelled the same, are stored under one key and come
    back as one. *)
Theorem reloaded_addresses_distinct (mentors : mentors_t) :
  NoDup (map vol_email (load_mentors (mentors_snapshot mentors))).
Proof.
  destruct (mentors_snapshot mentors) as [|item items] eqn:Hsnap.
  - apply (bool_decide_unpack _). vm_compute. reflexivity.
  - change (NoDup (map vol_email (load_mentors_loop (item :: items)))).
    rewrite <- Hsnap.
    destruct (mentors_snapshot_keys mentors []) as [Hnd Hkeys];
      [constructor | intros k d [] |].
    fold (mentors_snapshot mentors) in Hnd, Hkeys.
    destruct (load_mentors_emails (mentors_snapshot mentors) Hkeys [])
      as (ks & Hmap & Hsub).
    unfold load_mentors_loop. rewrite Hmap. simpl.
    eapply sublist_NoDup; eassumption.
Qed.

Example reload_merges_same_address :
  load_mentors (mentors_snapshot [alice; charlie; with_availability alice false])
    = [with_availability alice false; charlie].
Proof. reflexivity. Qed.
